(** * INJ tracker: snapshot normaliser (api/point.js) and session reducer (api/track.js)

    A shallow embedding of the two serverless handlers and the properties
    of their normalisation and reduction rules.

    - JavaScript values are the inductive type [js].  Numbers are integers
      (millisecond time stamps, counters, integer amounts); NaN and the
      infinities appear only as the [None] of [Number_], which [toNum] turns
      into 0 at once.  Strings are sequences of 8-bit code units, so the
      length of a body is its number of characters.
    - The snapshot handler takes any parsed JSON value and coerces it, and
      is modelled on [js].  The tracking handler is modelled on the shape
      of payload and session record that it documents: strings, integer
      time stamps, [null] or a number for [endTs].
    - What the handlers take from their host is an interface the
      definitions are parametric in: the clock, the reader of numbers in
      strings, the url of a blob ([Host]), and [JSON.parse] /
      [JSON.stringify] at each type of document ([Json]).
    - A request is answered in one piece: the model has the listeners on
      the request stream run over the chunks in order and then the end, and
      a [put] succeed.  The answers are the status code and the object sent;
      the texts parsed and the blobs put are listed beside them. *)

From Stdlib Require Import ZArith String Ascii.
From stdpp Require Import base list sorting strings pretty gmap.

Set Warnings "-register-all".
Open Scope string_scope.
Open Scope list_scope.
Open Scope Z_scope.

(** ** JavaScript values *)

Inductive js : Type :=
| VUndefined
| VNull
| VBool (b : bool)
| VNum (n : Z)
| VStr (s : string)
| VArr (xs : list js)
| VObj (fields : list (string * js)).

(** The host: [StringToNumber s] is [Number(s)] on a string, [None] when the
    result is NaN or not finite; [clock k] is what the k-th call of
    [Date.now()] in a request returns; [blob_url] is the url the blob
    service reports for a pathname; [floor_0_7 n] is [Math.floor(n * 0.7)],
    a product of doubles. *)
Class Host := {
  StringToNumber : string → option Z;
  clock : nat → Z;
  blob_url : string → string;
  floor_0_7 : nat → nat
}.

(** [JSON.parse] and [JSON.stringify] at the type of one document.  [parse]
    is [None] where [JSON.parse] throws a SyntaxError. *)
Class Json (A : Type) := {
  parse : string → option A;
  stringify : A → string
}.

(** Code that reads the clock threads the number of readings taken so far. *)
Definition Clock (A : Type) : Type := nat → A * nat.

#[global] Instance clock_ret : MRet Clock := fun A x k => (x, k).

#[global] Instance clock_bind : MBind Clock :=
  fun A B f m k => let '(x, k') := m k in f x k'.

(** [Date.now()] *)
Definition Date_now `{Host} : Clock Z := fun k => (clock k, S k).

(** [xs.map(f)] where [f] reads the clock: left to right. *)
Fixpoint mapM {A B} (f : A → Clock B) (xs : list A) : Clock (list B) :=
  match xs with
  | [] => mret []
  | x :: xs' => y ← f x; ys ← mapM f xs'; mret (y :: ys)
  end.

(** [o.k] and [o?.k] for the keys the handlers read.  The receiver of a plain
    [o.k] is always truthy in this code, so the access never throws and the
    two forms agree.  A parsed object has each key once.  A primitive or an
    array has none of these keys as a data property ([values] of an array is
    a method, and [clampArray] takes a function for no array, as it takes
    [undefined]). *)
Fixpoint lookup_field (k : string) (fields : list (string * js)) : js :=
  match fields with
  | [] => VUndefined
  | (k', v) :: rest => if String.eqb k' k then v else lookup_field k rest
  end.

Definition get (o : js) (k : string) : js :=
  match o with
  | VObj fields => lookup_field k fields
  | _ => VUndefined
  end.

(** ToBoolean *)
Definition truthy (v : js) : bool :=
  match v with
  | VUndefined | VNull => false
  | VBool b => b
  | VNum n => negb (n =? 0)
  | VStr s => negb (String.eqb s "")
  | VArr _ | VObj _ => true
  end.

(** [a || b] and [a ?? b] *)
Definition js_or (a b : js) : js := if truthy a then a else b.

Definition nullish (a b : js) : js :=
  match a with
  | VUndefined | VNull => b
  | _ => a
  end.

(** [Array.isArray] *)
Definition isArray (v : js) : bool :=
  match v with VArr _ => true | _ => false end.

(** [String(v)].  An array is joined with commas, [null] and [undefined]
    elements printing as nothing. *)
Fixpoint String_ (v : js) : string :=
  match v with
  | VUndefined => "undefined"
  | VNull => "null"
  | VBool true => "true"
  | VBool false => "false"
  | VNum n => pretty n
  | VStr s => s
  | VArr xs =>
      String.concat ","
        (map (fun x => match x with
                       | VUndefined | VNull => ""
                       | _ => String_ x
                       end) xs)
  | VObj _ => "[object Object]"
  end.

(** [Number(v)]: [None] stands for NaN and the infinities. *)
Definition Number_ `{Host} (v : js) : option Z :=
  match v with
  | VUndefined => None
  | VNull => Some 0
  | VBool b => Some (if b then 1 else 0)
  | VNum n => Some n
  | VStr s => StringToNumber s
  | VArr _ => StringToNumber (String_ v)
  | VObj _ => None
  end.

(** [z || d] on numbers: 0 is falsy. *)
Definition num_or (z d : Z) : Z := if z =? 0 then d else z.

(** [o || d] on a field that holds a number or [null]. *)
Definition opt_or (o : option Z) (d : Z) : Z :=
  match o with
  | Some z => num_or z d
  | None => d
  end.

(** [s.slice(0, n)] *)
Definition str_take (n : nat) (s : string) : string := substring 0 n s.

(** [s.trim()] on the ASCII white space. *)
Fixpoint ltrim (s : string) : string :=
  match s with
  | String c s' => if Ascii.is_space c then ltrim s' else s
  | EmptyString => EmptyString
  end.

Definition trim (s : string) : string :=
  String.rev (ltrim (String.rev (ltrim s))).

(** [s.replace(/\s+/g, "_")]: every maximal run of white space becomes one
    underscore.  [in_run] says the previous character was white space. *)
Fixpoint replace_ws (in_run : bool) (s : string) : string :=
  match s with
  | EmptyString => EmptyString
  | String c s' =>
      if Ascii.is_space c
      then if in_run then replace_ws true s' else String "_" (replace_ws true s')
      else String c (replace_ws false s')
  end.

(** A reader of decimal integer literals, the instance of [StringToNumber]
    the worked examples run with. *)
Definition digit (c : ascii) : option Z :=
  let n := Z.of_nat (nat_of_ascii c) in
  if (48 <=? n) && (n <=? 57) then Some (n - 48) else None.

Fixpoint digits (acc : Z) (s : string) : option Z :=
  match s with
  | EmptyString => Some acc
  | String c s' =>
      match digit c with
      | Some d => digits (10 * acc + d) s'
      | None => None
      end
  end.

Definition decimal (s : string) : option Z :=
  match trim s with
  | EmptyString => Some 0
  | String "-" (String c r) => Z.opp <$> digits 0 (String c r)
  | String "+" (String c r) => digits 0 (String c r)
  | String "-" EmptyString | String "+" EmptyString => None
  | t => digits 0 t
  end.

(** The host of the worked examples: the clock starts at [t0] and advances
    one millisecond per reading.  Its [floor_0_7] divides integers, which is
    not the product of doubles for every length; no example reaches it. *)
Definition example_host (t0 : Z) : Host :=
  {| StringToNumber := decimal;
     clock := fun k => t0 + Z.of_nat k;
     blob_url := fun p => ("https://blob.example/" ++ p)%string;
     floor_0_7 := fun n => (7 * n / 10)%nat |}.

(** ** Arrays *)

(** [arr.slice(arr.length - max)] when the array is longer than [max]. *)
Definition clamp {A} (arr : list A) (max : nat) : list A :=
  if (length arr <=? max)%nat then arr else drop (length arr - max) arr.

(** [arr.slice(-n)]: the last [n] elements, and the whole array when [n] is 0
    (the argument is then [-0], which [slice] reads as the start index 0). *)
Definition slice_last {A} (n : nat) (arr : list A) : list A :=
  if (n =? 0)%nat then arr else drop (length arr - n) arr.

(** [while (arr.length < n) arr.unshift(d)]; [k] bounds the iterations. *)
Fixpoint unshift_loop {A} (k : nat) (n : nat) (d : A) (arr : list A) : list A :=
  match k with
  | O => arr
  | S k' => if (length arr <? n)%nat then unshift_loop k' n d (d :: arr) else arr
  end.

Definition unshift_while {A} (n : nat) (d : A) (arr : list A) : list A :=
  unshift_loop n n d arr.

(** ** api/point.js: the snapshot endpoint *)

Module Point.

Definition MAX_BODY_BYTES : Z := 220000.

Definition MAX_POINTS : nat := 2400.
Definition MAX_EVENTS : nat := 1200.

(** What [json(res, code, obj)] sends: the status code and the object (the
    headers are the same on every answer). *)
Record response := { statusCode : Z; body : js }.

Definition json (code : Z) (obj : js) : response :=
  {| statusCode := code; body := obj |}.

(** [/^inj[a-z0-9]{20,80}$/i] *)
Definition is_alnum (c : ascii) : bool :=
  let n := nat_of_ascii c in
  ((48 <=? n) && (n <=? 57) || (65 <=? n) && (n <=? 90)
   || (97 <=? n) && (n <=? 122))%nat.

Fixpoint all_alnum (s : string) : bool :=
  match s with
  | EmptyString => true
  | String c s' => is_alnum c && all_alnum s'
  end.

Definition letter (lower upper c : ascii) : bool :=
  Ascii.eqb c lower || Ascii.eqb c upper.

Definition addr_re (s : string) : bool :=
  match s with
  | String a (String b (String c r)) =>
      letter "i" "I" a && letter "n" "N" b && letter "j" "J" c
      && all_alnum r
      && (20 <=? String.length r)%nat && (String.length r <=? 80)%nat
  | _ => false
  end.

Definition normalizeAddr (a : js) : string :=
  let s := trim (String_ (js_or a (VStr ""))) in
  if addr_re s then s else "".

Definition clampArray (arr : js) (max : nat) : list js :=
  match arr with
  | VArr xs => clamp xs max
  | _ => []
  end.

Definition toNum `{Host} (x : js) : Z :=
  match Number_ x with
  | Some n => n
  | None => 0
  end.

Definition toStr (x : js) (maxLen : nat) : string :=
  let s := String_ (nullish x (VStr "")) in
  if (maxLen <? String.length s)%nat then str_take maxLen s else s.

Record event := {
  ev_id : string;
  ev_ts : Z;
  ev_kind : string;
  ev_title : string;
  ev_detail : string;
  ev_value : Z;
  ev_dir : string;
  ev_status : string
}.

Definition sanitizeEvent `{Host} (e : js) : Clock event :=
  ts ← (let n := toNum (get e "ts") in if n =? 0 then Date_now else mret n);
  let kind := toStr (js_or (js_or (get e "kind") (get e "type")) (VStr "event")) 32 in
  let title := toStr (js_or (get e "title") (VStr kind)) 64 in
  let detail := toStr (js_or (js_or (get e "detail") (get e "desc")) (VStr "")) 220 in
  let value := toNum (get e "value") in
  let dir := toStr (js_or (get e "dir") (VStr "")) 8 in
  let status := toStr (js_or (get e "status") (VStr "done")) 12 in
  let id :=
    toStr (js_or (get e "id")
             (VStr (replace_ws false
                      (pretty ts ++ ":" ++ kind ++ ":" ++ title)%string))) 120 in
  mret {| ev_id := id; ev_ts := ts; ev_kind := kind; ev_title := title;
          ev_detail := detail; ev_value := value; ev_dir := dir;
          ev_status := status |}.

Record stake_series := {
  st_labels : list string;
  st_data : list Z;
  st_moves : list Z;
  st_types : list string
}.

Record wd_series := {
  wd_labels : list string;
  wd_values : list Z;
  wd_times : list Z
}.

Record nw_series := {
  nw_times : list Z;
  nw_usd : list Z;
  nw_inj : list Z
}.

Record snapshot := {
  out_v : Z;
  out_t : Z;
  out_stake : stake_series;
  out_wd : wd_series;
  out_nw : nw_series;
  out_events : list event
}.

(** The body of [if (p?.stake)]. *)
Definition sanitizeStake `{Host} (s : js) : stake_series :=
  let labels := map (fun x => toStr x 48) (clampArray (get s "labels") MAX_POINTS) in
  let data := map toNum (clampArray (get s "data") MAX_POINTS) in
  let moves := map toNum (clampArray (get s "moves") MAX_POINTS) in
  let types := map (fun x => toStr x 40) (clampArray (get s "types") MAX_POINTS) in
  let n := length data in
  let labels := slice_last n labels in
  let moves := slice_last n moves in
  let types := slice_last n types in
  {| st_labels := labels;
     st_data := data;
     st_moves := unshift_while n 0 moves;
     st_types := unshift_while n "Stake update" types |}.

(** The body of [if (p?.wd)]. *)
Definition sanitizeWd `{Host} (w : js) : wd_series :=
  let labels := map (fun x => toStr x 48) (clampArray (get w "labels") MAX_POINTS) in
  let values := map toNum (clampArray (get w "values") MAX_POINTS) in
  let times := map toNum (clampArray (get w "times") MAX_POINTS) in
  let n := length values in
  let labels := slice_last n labels in
  let times := slice_last n times in
  {| wd_labels := labels;
     wd_values := values;
     wd_times := unshift_while n 0 times |}.

(** The body of [if (p?.nw)]. *)
Definition sanitizeNw `{Host} (w : js) : nw_series :=
  let times := map toNum (clampArray (get w "times") MAX_POINTS) in
  let usd := map toNum (clampArray (get w "usd") MAX_POINTS) in
  let inj := map toNum (clampArray (get w "inj") MAX_POINTS) in
  let n := length times in
  let usd := slice_last n usd in
  let inj := slice_last n inj in
  {| nw_times := times;
     nw_usd := unshift_while n 0 usd;
     nw_inj := unshift_while n 0 inj |}.

(** A [Map] keyed by event id, in insertion order: [set] on a key that is
    present replaces the value where the key stands, a new key goes last. *)
Fixpoint map_set (key : string) (ev : event) (m : list (string * event))
  : list (string * event) :=
  match m with
  | [] => [(key, ev)]
  | (k, e) :: m' =>
      if String.eqb k key then (key, ev) :: m' else (k, e) :: map_set key ev m'
  end.

(** [for (const ev of cleaned) map.set(ev.id, ev)] *)
Definition dedup (cleaned : list event) : list (string * event) :=
  fold_left (fun m ev => map_set (ev_id ev) ev m) cleaned [].

(** [Array.from(map.values())] *)
Definition map_values (m : list (string * event)) : list event := map snd m.

(** The comparator [(a, b) => (a.ts || 0) - (b.ts || 0)]. *)
Definition byTs (a b : event) : Z := num_or (ev_ts a) 0 - num_or (ev_ts b) 0.

(** [Array.prototype.sort] is stable: elements the comparator calls equal
    keep their order.  An insertion sort that puts an element in front of
    the first one that is not smaller gives that permutation. *)
Fixpoint insert_by {A} (cmp : A → A → Z) (x : A) (l : list A) : list A :=
  match l with
  | [] => [x]
  | y :: l' => if 0 <? cmp x y then y :: insert_by cmp x l' else x :: y :: l'
  end.

Definition sort_by {A} (cmp : A → A → Z) (l : list A) : list A :=
  foldr (insert_by cmp) [] l.

(** The body of [if (Array.isArray(p?.events))]. *)
Definition sanitizeEvents `{Host} (evs : list js) : Clock (list event) :=
  cleaned ← mapM sanitizeEvent evs;
  let arr := sort_by byTs (map_values (dedup cleaned)) in
  mret (clamp arr MAX_EVENTS).

Definition empty_stake : stake_series :=
  {| st_labels := []; st_data := []; st_moves := []; st_types := [] |}.
Definition empty_wd : wd_series :=
  {| wd_labels := []; wd_values := []; wd_times := [] |}.
Definition empty_nw : nw_series :=
  {| nw_times := []; nw_usd := []; nw_inj := [] |}.

Definition sanitizePayload `{Host} (p : js) : Clock snapshot :=
  _ ← Date_now;
  let stake :=
    if truthy (get p "stake") then sanitizeStake (get p "stake") else empty_stake in
  let wd := if truthy (get p "wd") then sanitizeWd (get p "wd") else empty_wd in
  let nw := if truthy (get p "nw") then sanitizeNw (get p "nw") else empty_nw in
  events ← match get p "events" with
           | VArr evs => sanitizeEvents evs
           | _ => mret []
           end;
  t ← Date_now;
  mret {| out_v := 2; out_t := t; out_stake := stake; out_wd := wd;
          out_nw := nw; out_events := events |}.

(** The object [JSON.stringify(clean)] prints. *)
Definition js_event (e : event) : js :=
  VObj [("id", VStr (ev_id e)); ("ts", VNum (ev_ts e));
        ("kind", VStr (ev_kind e)); ("title", VStr (ev_title e));
        ("detail", VStr (ev_detail e)); ("value", VNum (ev_value e));
        ("dir", VStr (ev_dir e)); ("status", VStr (ev_status e))].

Definition js_snapshot (s : snapshot) : js :=
  VObj [("v", VNum (out_v s)); ("t", VNum (out_t s));
        ("stake", VObj [("labels", VArr (map VStr (st_labels (out_stake s))));
                        ("data", VArr (map VNum (st_data (out_stake s))));
                        ("moves", VArr (map VNum (st_moves (out_stake s))));
                        ("types", VArr (map VStr (st_types (out_stake s))))]);
        ("wd", VObj [("labels", VArr (map VStr (wd_labels (out_wd s))));
                     ("values", VArr (map VNum (wd_values (out_wd s))));
                     ("times", VArr (map VNum (wd_times (out_wd s))))]);
        ("nw", VObj [("times", VArr (map VNum (nw_times (out_nw s))));
                     ("usd", VArr (map VNum (nw_usd (out_nw s))));
                     ("inj", VArr (map VNum (nw_inj (out_nw s))))]);
        ("events", VArr (map js_event (out_events s)))].

(** A stored blob as a read sees it: whether the fetch of its url answers
    ok, and the text.  A pathname with no blob makes [head] throw. *)
Inductive blob := Blob (ok : bool) (text : string).

Definition readBlobTextByPathname (st : gmap string blob) (pathname : string)
  : option string :=
  match st !! pathname with
  | Some (Blob true txt) => Some txt
  | Some (Blob false _) => None
  | None => None
  end.

(** A request: the method, [req.query], [req.body] when the platform has
    already read the body ([VUndefined] otherwise), and the chunks the
    stream delivers before it ends. *)
Record request := {
  method : string;
  query : js;
  req_body : js;
  chunks : list string
}.

(** The listener on "data": [raw += chunk], and past the ceiling the flag is
    raised and [raw] emptied. *)
Definition on_data (st : string * bool) (chunk : string) : string * bool :=
  let raw := (fst st ++ chunk)%string in
  if MAX_BODY_BYTES <? Z.of_nat (String.length raw) then (EmptyString, true)
  else (raw, snd st).

(** [None] is the [null] that signals a body past the ceiling. *)
Definition readRawBody `{Json js} (req : request) : option string :=
  match req_body req with
  | VUndefined | VNull =>
      let st := fold_left on_data (chunks req) (EmptyString, false) in
      if snd st then None else Some (fst st)
  | VStr s => Some s
  | b => Some (stringify b)
  end.

(** What a request does besides answering: the texts it hands to
    [JSON.parse] and the blobs it puts, in order. *)
Inductive effect :=
| JsonParse (text : string)
| BlobPut (pathname text : string).

Definition error_body (msg : string) : js :=
  VObj [("ok", VBool false); ("error", VStr msg)].

(** The pathname of the snapshot of an address. *)
Definition pathname_of (address : string) : string :=
  let prefix := ("inj-points/" ++ address ++ "/")%string in
  (prefix ++ "data.json")%string.

Definition handler `{Host} `{Json js} (req : request) (st : gmap string blob)
  : Clock (response * list effect) :=
  if String.eqb (method req) "OPTIONS"
  then mret ({| statusCode := 204; body := VUndefined |}, [])
  else
    let address := normalizeAddr (get (query req) "address") in
    if String.eqb address ""
    then mret (json 400 (error_body "Invalid address"), [])
    else
      let pathname := pathname_of address in
      if String.eqb (method req) "GET" then
        match readBlobTextByPathname st pathname with
        | None => mret (json 200 (VObj [("ok", VBool true); ("data", VNull)]), [])
        | Some EmptyString =>
            mret (json 200 (VObj [("ok", VBool true); ("data", VNull)]), [])
        | Some txt =>
            let data := match parse txt with
                        | Some d => d
                        | None => VNull
                        end in
            mret (json 200 (VObj [("ok", VBool true); ("data", data)]),
                  [JsonParse txt])
        end
      else if String.eqb (method req) "POST" then
        match readRawBody req with
        | None => mret (json 413 (error_body "Body too large"), [])
        | Some EmptyString => mret (json 400 (error_body "Empty body"), [])
        | Some raw =>
            match parse raw with
            | None => mret (json 400 (error_body "Invalid JSON"), [JsonParse raw])
            | Some parsed =>
                clean ← sanitizePayload parsed;
                let text := stringify (js_snapshot clean) in
                mret (json 200
                        (VObj [("ok", VBool true);
                               ("url", js_or (VStr (blob_url pathname)) VNull);
                               ("t", VNum (out_t clean))]),
                      [JsonParse raw; BlobPut pathname text])
            end
        end
      else mret (json 405 (error_body "Method not allowed"), []).

(** The store after the puts of a request. *)
Definition commit (st : gmap string blob) (effs : list effect) : gmap string blob :=
  fold_left (fun st e => match e with
                         | BlobPut p t => <[p := Blob true t]> st
                         | JsonParse _ => st
                         end) effs st.

(** *** The vocabulary of the statements about this endpoint *)


(** The event a [Map] keyed by id holds for a key. *)
Fixpoint assoc (key : string) (m : list (string * event)) : option event :=
  match m with
  | [] => None
  | (k, e) :: m' => if String.eqb k key then Some e else assoc key m'
  end.

(** The last event of a list that carries the id [i]. *)
Definition last_with_id (i : string) (l : list event) : option event :=
  last (filter (λ e, ev_id e = i) l).

(** How many events of a list carry the id [i]. *)
Definition count_id (i : string) (l : list event) : nat :=
  length (filter (λ e, ev_id e = i) l).

(** The sanitized events of a payload in input order, as [sanitizePayload]
    computes them (its first reading of the clock comes before). *)
Definition cleaned_of `{Host} (p : js) (k : nat) : list event :=
  match get p "events" with
  | VArr evs => (mapM sanitizeEvent evs (S k)).1
  | _ => []
  end.


(** Two hosts whose numbers read alike: they may differ in their clocks. *)
Definition same_numbers (H1 H2 : Host) : Prop :=
  ∀ s, @StringToNumber H1 s = @StringToNumber H2 s.

(** Every event of the payload carries a time stamp that reads as a number
    other than 0. *)
Definition timestamped `{Host} (p : js) : Prop :=
  match get p "events" with
  | VArr evs => Forall (λ e, toNum (get e "ts") ≠ 0) evs
  | _ => True
  end.

(** The body a request streams. *)
Definition streamed (req : request) : string := String.concat "" (chunks req).

(** A string with no white space in it. *)
Fixpoint no_space (s : string) : bool :=
  match s with
  | EmptyString => true
  | String c s' => negb (Ascii.is_space c) && no_space s'
  end.

(** The lengths [sanitizeEvent] cuts the strings of an event to. *)
Definition bounded_event (ev : event) : Prop :=
  (String.length (ev_id ev) ≤ 120 ∧ String.length (ev_kind ev) ≤ 32 ∧
   String.length (ev_title ev) ≤ 64 ∧ String.length (ev_detail ev) ≤ 220 ∧
   String.length (ev_dir ev) ≤ 8 ∧ String.length (ev_status ev) ≤ 12)%nat.

End Point.

(** ** api/track.js: the tracking endpoint *)

Module Track.

Definition SESSIONS_KEY : string := "analytics/sessions.json".
Definition NAMES_KEY : string := "analytics/names.json".

Definition MAX_SESSIONS : nat := 5000.
Definition MAX_BODY_BYTES : Z := 220000.

(** A session record.  [endTs] is [null] until an end arrives, [endReason]
    is absent until then. *)
Record session := {
  sessionId : string;
  deviceId : string;
  startTs : Z;
  lastTs : Z;
  endTs : option Z;
  beats : Z;
  page : string;
  deviceInfo : js;
  endReason : option string
}.

(** The body of a POST at the shape the handler documents:
    [{ type, sessionId, deviceId, deviceInfo, page, ts, reason, name }].
    A string field that is missing reads as the empty string (the handler
    reads each one through [x || ""]); [p_ts] is a number, or [None] when
    the field is missing; [p_deviceInfo] is [VUndefined] when missing. *)
Record payload := {
  p_type : string;
  p_sessionId : string;
  p_deviceId : string;
  p_deviceInfo : js;
  p_page : string;
  p_ts : option Z;
  p_reason : string;
  p_name : string
}.

(** What a failing call throws. *)
Inductive thrown :=
| SyntaxError (text : string).

(** The objects the handler answers with. *)
Inductive reply :=
| ROk
| RData (sessions : list session) (names : gmap string string) (ts : Z)
| RError (error : string)
| RThrown (e : thrown).

Record response := { statusCode : Z; body : reply }.

Definition json (code : Z) (obj : reply) : response :=
  {| statusCode := code; body := obj |}.

Inductive blob := Blob (ok : bool) (text : string).

(** [list({ prefix: pathname, limit: 1 })] finds the blob or nothing;
    [r.json()] throws on a text that is not JSON. *)
Definition readJsonOr {A} `{Json A} (defaultValue : A) (st : gmap string blob)
    (pathname : string) : thrown + A :=
  match st !! pathname with
  | None => inr defaultValue
  | Some (Blob false _) => inr defaultValue
  | Some (Blob true txt) =>
      match parse txt with
      | Some d => inr d
      | None => inl (SyntaxError txt)
      end
  end.

Inductive effect :=
| JsonParse (text : string)
| BlobPut (pathname text : string).

(** [writeJson(pathname, data)].  [trimmed] is [Some] of the fallback when
    [data] is an array, [None] when it is not. *)
Definition writeJson {A} `{Json A} (trimmed : option A) (pathname : string)
    (data : A) : effect :=
  let body := stringify data in
  if MAX_BODY_BYTES <? Z.of_nat (String.length body) then
    match trimmed with
    | Some t => BlobPut pathname (stringify t)
    | None => BlobPut pathname body
    end
  else BlobPut pathname body.

(** [data.slice(-Math.floor(data.length * 0.7))] *)
Definition fallback `{Host} {X} (data : list X) : list X :=
  slice_last (floor_0_7 (length data)) data.

Definition nowMs `{Host} : Clock Z := Date_now.

(** [Number(payload.ts || nowMs())] *)
Definition event_ts `{Host} (p : payload) : Clock Z :=
  match p_ts p with
  | Some z => if z =? 0 then nowMs else mret z
  | None => nowMs
  end.

(** [sessions.find((x) => x.sessionId === sessionId)], with the index of
    the record found: the handler updates that record in place. *)
Definition find (sid : string) (sessions : list session) : option (nat * session) :=
  list_find (fun x => sessionId x = sid) sessions.

(** Assignments to the fields of a record. *)
Definition set_startTs (z : Z) (s : session) : session :=
  {| sessionId := sessionId s; deviceId := deviceId s; startTs := z;
     lastTs := lastTs s; endTs := endTs s; beats := beats s; page := page s;
     deviceInfo := deviceInfo s; endReason := endReason s |}.

Definition set_lastTs (z : Z) (s : session) : session :=
  {| sessionId := sessionId s; deviceId := deviceId s; startTs := startTs s;
     lastTs := z; endTs := endTs s; beats := beats s; page := page s;
     deviceInfo := deviceInfo s; endReason := endReason s |}.

Definition set_endTs (o : option Z) (s : session) : session :=
  {| sessionId := sessionId s; deviceId := deviceId s; startTs := startTs s;
     lastTs := lastTs s; endTs := o; beats := beats s; page := page s;
     deviceInfo := deviceInfo s; endReason := endReason s |}.

Definition set_beats (z : Z) (s : session) : session :=
  {| sessionId := sessionId s; deviceId := deviceId s; startTs := startTs s;
     lastTs := lastTs s; endTs := endTs s; beats := z; page := page s;
     deviceInfo := deviceInfo s; endReason := endReason s |}.

Definition set_endReason (r : string) (s : session) : session :=
  {| sessionId := sessionId s; deviceId := deviceId s; startTs := startTs s;
     lastTs := lastTs s; endTs := endTs s; beats := beats s; page := page s;
     deviceInfo := deviceInfo s; endReason := Some r |}.

(** [if (!s) { s = fresh; sessions.push(s); }]: the record the branch goes
    on to update, where it stands, and the collection. *)
Definition find_or_push (sid : string) (fresh : session) (sessions : list session)
  : nat * session * list session :=
  match find sid sessions with
  | Some (i, s) => (i, s, sessions)
  | None => (length sessions, fresh, sessions ++ [fresh])
  end.

(** [x || ""] then [String]: on a string field nothing changes but the
    default. *)
Definition str_or (s d : string) : string :=
  if String.eqb s "" then d else s.

(** The chain [if (payload.type === "start") ... else if "beat" ... else if
    "end" ... else Unknown type], on the collection read from the store.
    [None] is the unknown type. *)
Definition reduce (p : payload) (sid did : string) (ts : Z) (sessions : list session)
  : option (list session) :=
  if String.eqb (p_type p) "start" then
    match find sid sessions with
    | None =>
        Some (sessions ++
                [{| sessionId := sid; deviceId := did; startTs := ts;
                    lastTs := ts; endTs := None; beats := 0;
                    page := str_or (p_page p) "";
                    deviceInfo := js_or (p_deviceInfo p) (VObj []);
                    endReason := None |}])
    | Some (i, s) =>
        let s := set_startTs (num_or (startTs s) ts) s in
        let s := set_lastTs ts s in
        Some (<[i := s]> sessions)
    end
  else if String.eqb (p_type p) "beat" then
    let fresh := {| sessionId := sid; deviceId := did; startTs := ts;
                    lastTs := ts; endTs := None; beats := 0; page := "";
                    deviceInfo := VObj []; endReason := None |} in
    let '(i, s, sessions) := find_or_push sid fresh sessions in
    let s := set_lastTs (Z.max (num_or (lastTs s) 0) ts) s in
    let s := set_beats (num_or (beats s) 0 + 1) s in
    Some (<[i := s]> sessions)
  else if String.eqb (p_type p) "end" then
    let fresh := {| sessionId := sid; deviceId := did; startTs := ts;
                    lastTs := ts; endTs := Some ts; beats := 0; page := "";
                    deviceInfo := VObj []; endReason := None |} in
    let '(i, s, sessions) := find_or_push sid fresh sessions in
    let s := set_lastTs (Z.max (num_or (lastTs s) 0) ts) s in
    let s := set_endTs (Some (opt_or (endTs s) ts)) s in
    let s := set_endReason (str_or (p_reason p) "end") s in
    Some (<[i := s]> sessions)
  else None.

(** [if (sessions.length > MAX_SESSIONS) sessions.splice(0, sessions.length
    - MAX_SESSIONS)] *)
Definition cap (sessions : list session) : list session :=
  if (MAX_SESSIONS <? length sessions)%nat
  then drop (length sessions - MAX_SESSIONS) sessions
  else sessions.

Record request := {
  method : string;
  chunks : list string
}.

Definition handler `{Host} `{Json payload} `{Json (list session)}
    `{Json (gmap string string)} (req : request) (st : gmap string blob)
  : Clock (response * list effect) :=
  let method := str_or (method req) "GET" in
  if String.eqb method "GET" then
    match readJsonOr [] st SESSIONS_KEY with
    | inl e => mret (json 500 (RThrown e), [])
    | inr sessions =>
        match readJsonOr ∅ st NAMES_KEY with
        | inl e => mret (json 500 (RThrown e), [])
        | inr names =>
            ts ← nowMs;
            mret (json 200 (RData sessions names ts), [])
        end
    end
  else if negb (String.eqb method "POST")
  then mret (json 405 (RError "Method Not Allowed"), [])
  else
    let body := String.concat "" (chunks req) in
    if String.eqb body "" then mret (json 400 (RError "Empty body"), [])
    else if MAX_BODY_BYTES <? Z.of_nat (String.length body)
    then mret (json 413 (RError "Body too large"), [])
    else
      match parse body with
      | None => mret (json 500 (RThrown (SyntaxError body)), [JsonParse body])
      | Some payload =>
          if String.eqb (p_type payload) "name" then
            match readJsonOr ∅ st NAMES_KEY with
            | inl e => mret (json 500 (RThrown e), [JsonParse body])
            | inr names =>
                let n := str_take 32 (trim (str_or (p_name payload) "")) in
                if String.eqb (p_deviceId payload) ""
                then mret (json 400 (RError "Missing deviceId"), [JsonParse body])
                else if String.eqb n ""
                then mret (json 400 (RError "Empty name"), [JsonParse body])
                else
                  let names := <[p_deviceId payload := n]> names in
                  mret (json 200 ROk,
                        [JsonParse body; writeJson None NAMES_KEY names])
            end
          else
            match readJsonOr [] st SESSIONS_KEY with
            | inl e => mret (json 500 (RThrown e), [JsonParse body])
            | inr sessions =>
                let sessionId := str_or (p_sessionId payload) "" in
                let deviceId := str_or (p_deviceId payload) "" in
                ts ← event_ts payload;
                if String.eqb sessionId "" || String.eqb deviceId ""
                then mret (json 400 (RError "Missing sessionId/deviceId"),
                           [JsonParse body])
                else
                  match reduce payload sessionId deviceId ts sessions with
                  | None => mret (json 400 (RError "Unknown type"), [JsonParse body])
                  | Some sessions =>
                      let sessions := cap sessions in
                      mret (json 200 ROk,
                            [JsonParse body;
                             writeJson (Some (fallback sessions)) SESSIONS_KEY sessions])
                  end
            end
      end.

(** *** The vocabulary of the statements about this endpoint *)

(** The record an early beat creates, after the beat is counted. *)
Definition beat_record (sid did : string) (ts : Z) : session :=
  {| sessionId := sid; deviceId := did; startTs := ts; lastTs := ts;
     endTs := None; beats := 1; page := ""; deviceInfo := VObj [];
     endReason := None |}.

(** The record an end creates when the session is unknown. *)
Definition end_record (sid did : string) (ts : Z) (reason : string) : session :=
  {| sessionId := sid; deviceId := did; startTs := ts; lastTs := ts;
     endTs := Some ts; beats := 0; page := ""; deviceInfo := VObj [];
     endReason := Some reason |}.

(** What the "end" branch does to the record it finds. *)
Definition ended (p : payload) (ts : Z) (s : session) : session :=
  set_endReason (str_or (p_reason p) "end")
    (set_endTs (Some (opt_or (endTs s) ts))
       (set_lastTs (Z.max (num_or (lastTs s) 0) ts) s)).


(** The body a POST streams. *)
Definition streamed (req : request) : string := String.concat "" (chunks req).

(** The store after the puts of a request. *)
Definition commit (st : gmap string blob) (effs : list effect) : gmap string blob :=
  fold_left (fun st e => match e with
                         | BlobPut p t => <[p := Blob true t]> st
                         | JsonParse _ => st
                         end) effs st.



End Track.

(** ** Worked examples: payloads, requests and hosts *)

Module Examples.

(** The payload of the round trip: a stake section with three data points
    and nothing else. *)
Definition stake_data_123 : js :=
  VObj [("stake", VObj [("data", VArr [VNum 1; VNum 2; VNum 3])])].

(** The events of the ordering example: [{ts:5,id:a}, {ts:3,id:b},
    {ts:5,id:c}]. *)
Definition ev (ts : Z) (id : string) : js :=
  VObj [("ts", VNum ts); ("id", VStr id)].

Definition events_5_3_5 : js :=
  VObj [("events", VArr [ev 5 "a"; ev 3 "b"; ev 5 "c"])].

(** An event submitted twice with the id [x] and the earliest time stamp,
    then [MAX_EVENTS] later events with ids of their own. *)
Definition resubmitted_then_many : js :=
  VObj [("events",
         VArr (ev 1 "x" :: ev 1 "x" ::
               map (λ i, ev (2 + Z.of_nat i) (pretty i))
                 (seq 0 Point.MAX_EVENTS)))].

(** Payloads of the worked examples. *)
Definition event_of (type sid did : string) (ts : option Z) (reason : string)
  : Track.payload :=
  {| Track.p_type := type; Track.p_sessionId := sid; Track.p_deviceId := did;
     Track.p_deviceInfo := VUndefined; Track.p_page := ""; Track.p_ts := ts;
     Track.p_reason := reason; Track.p_name := "" |}.

(** A session that started at 50 and was last seen at 100. *)
Definition seen_at_100 : Track.session :=
  {| Track.sessionId := "s1"; Track.deviceId := "d1"; Track.startTs := 50;
     Track.lastTs := 100; Track.endTs := None; Track.beats := 3;
     Track.page := "/"; Track.deviceInfo := VObj []; Track.endReason := None |}.


(** Readers of JSON for the worked examples: each one knows the text of one
    document of its type and takes every other text for corrupt. *)
Definition only_null : Json js :=
  {| parse := λ s, if String.eqb s "null" then Some VNull else None;
     stringify := λ _, "null" |}.

Definition only_no_sessions : Json (list Track.session) :=
  {| parse := λ s, if String.eqb s "[]" then Some [] else None;
     stringify := λ _, "[]" |}.

Definition only_no_names : Json (gmap string string) :=
  {| parse := λ s, if String.eqb s "{}" then Some ∅ else None;
     stringify := λ _, "{}" |}.

Definition only_a_beat : Json Track.payload :=
  {| parse := λ s, if String.eqb s "beat"
                   then Some (event_of "beat" "s1" "d1" None "")
                   else None;
     stringify := λ _, "beat" |}.


(** A reader that knows two texts: the body [in], which is the round-trip
    payload, and [doc], which is the document that a host whose clock starts
    at [t0] stores for it.  It prints every value as [doc]. *)
Definition round_trip_json (t0 : Z) : Json js :=
  {| parse := λ s,
       if String.eqb s "in" then Some stake_data_123
       else if String.eqb s "doc"
       then Some (Point.js_snapshot
                    (Point.sanitizePayload (H := example_host t0)
                       stake_data_123 0%nat).1)
       else None;
     stringify := λ _, "doc" |}.

(** An address the snapshot endpoint accepts. *)
Definition an_address : js :=
  VObj [("address", VStr "inj1qqqqqqqqqqqqqqqqqqqqqqqq")].

(** Requests on the snapshot endpoint, by what the platform did with the
    body: left it on the stream, or read it beforehand. *)
Definition point_get : Point.request :=
  {| Point.method := "GET"; Point.query := an_address;
     Point.req_body := VUndefined; Point.chunks := [] |}.

Definition point_post_streamed (body : string) : Point.request :=
  {| Point.method := "POST"; Point.query := an_address;
     Point.req_body := VUndefined; Point.chunks := [body] |}.


Definition track_post (body : string) : Track.request :=
  {| Track.method := "POST"; Track.chunks := [body] |}.


(** A GET for another address, and a POST whose body comes in chunks. *)
Definition point_get_other : Point.request :=
  {| Point.method := "GET";
     Point.query := VObj [("address", VStr "inj1zzzzzzzzzzzzzzzzzzzzzzzz")];
     Point.req_body := VUndefined; Point.chunks := [] |}.


(** An event with no id and a title of two words. *)
Definition price_alert : js :=
  VObj [("ts", VNum 7); ("title", VStr "price  alert")].

(** A reader of sessions documents that knows the text of one: the
    collection that holds the record of one beat at 1000. *)
Definition only_one_beat : Json (list Track.session) :=
  {| parse := λ s, if String.eqb s "doc"
                   then Some [Track.beat_record "s1" "d1" 1000]
                   else None;
     stringify := λ _, "doc" |}.

(** A reader of payloads that knows a beat with no session id. *)
Definition only_a_beat_without_session : Json Track.payload :=
  {| parse := λ s, if String.eqb s "beat"
                   then Some (event_of "beat" "" "d1" None "")
                   else None;
     stringify := λ _, "beat" |}.

End Examples.

(** * Properties *)

(** ** Arrays: clamping, [slice(-n)] and the padding loop *)

Section arrays.
Context {A : Type}.
Implicit Types (l : list A) (n k : nat) (d : A).

Lemma clamp_length l n : length (clamp l n) = Nat.min (length l) n.
Proof.
  unfold clamp. destruct (Nat.leb_spec (length l) n).
  - lia.
  - rewrite length_drop. lia.
Qed.

Lemma clamp_suffix l n : clamp l n `suffix_of` l.
Proof.
  unfold clamp. destruct (length l <=? n)%nat; [done | apply suffix_drop].
Qed.

Lemma clamp_short l n : (length l ≤ n)%nat → clamp l n = l.
Proof.
  intros Hle. unfold clamp. by destruct (Nat.leb_spec (length l) n); [|lia].
Qed.

Lemma slice_last_zero l : slice_last 0 l = l.
Proof. done. Qed.

Lemma slice_last_length l n :
  n ≠ 0%nat → length (slice_last n l) = Nat.min n (length l).
Proof.
  intros Hn. unfold slice_last.
  destruct (Nat.eqb_spec n 0); [done|]. rewrite length_drop. lia.
Qed.

Lemma slice_last_suffix l n : slice_last n l `suffix_of` l.
Proof.
  unfold slice_last. destruct (n =? 0)%nat; [done | apply suffix_drop].
Qed.

Lemma slice_last_bound l n : (length (slice_last n l) ≤ length l)%nat.
Proof. apply suffix_length, slice_last_suffix. Qed.

(** The loop adds the default in front until the array has [n] elements. *)
Lemma unshift_loop_spec k n d l :
  (n - length l ≤ k)%nat →
  unshift_loop k n d l = replicate (n - length l) d ++ l.
Proof.
  revert l. induction k as [|k IH]; intros l Hk; simpl.
  - by replace (n - length l)%nat with 0%nat by lia.
  - destruct (Nat.ltb_spec (length l) n) as [Hlt|Hge].
    + rewrite IH by (simpl; lia). simpl.
      replace (n - length l)%nat with (S (n - S (length l))) by lia.
      simpl. rewrite cons_middle, (assoc_L (++)), <- replicate_cons_app. done.
    + by replace (n - length l)%nat with 0%nat by lia.
Qed.

Lemma unshift_while_spec n d l :
  unshift_while n d l = replicate (n - length l) d ++ l.
Proof. apply unshift_loop_spec. lia. Qed.

Lemma unshift_while_length n d l :
  length (unshift_while n d l) = Nat.max n (length l).
Proof.
  rewrite unshift_while_spec, length_app, length_replicate. lia.
Qed.

End arrays.

(** ** The series normaliser of api/point.js *)

Module PointSpec.
Import Point Examples.

Section series.
Context `{Host}.

Lemma sanitizePayload_stake p k :
  out_stake (sanitizePayload p k).1 =
  if truthy (get p "stake") then sanitizeStake (get p "stake") else empty_stake.
Proof.
  unfold sanitizePayload, mbind, clock_bind, Date_now.
  destruct (get p "events"); simpl; try done.
  by destruct (sanitizeEvents _ _).
Qed.

Lemma sanitizePayload_wd p k :
  out_wd (sanitizePayload p k).1 =
  if truthy (get p "wd") then sanitizeWd (get p "wd") else empty_wd.
Proof.
  unfold sanitizePayload, mbind, clock_bind, Date_now.
  destruct (get p "events"); simpl; try done.
  by destruct (sanitizeEvents _ _).
Qed.

Lemma sanitizePayload_nw p k :
  out_nw (sanitizePayload p k).1 =
  if truthy (get p "nw") then sanitizeNw (get p "nw") else empty_nw.
Proof.
  unfold sanitizePayload, mbind, clock_bind, Date_now.
  destruct (get p "events"); simpl; try done.
  by destruct (sanitizeEvents _ _).
Qed.

Lemma clampArray_length arr max : (length (clampArray arr max) ≤ max)%nat.
Proof.
  destruct arr; simpl; try lia. rewrite clamp_length. lia.
Qed.


(** Whatever the primary array, such an array stays within a bound that
    holds for the primary array and for its own source. *)
Lemma padded_slice_bound {A} (d : A) (n m : nat) (src : list A) :
  (n ≤ m)%nat → (length src ≤ m)%nat →
  (length (unshift_while n d (slice_last n src)) ≤ m)%nat.
Proof.
  intros Hn Hsrc. rewrite unshift_while_length.
  pose proof (slice_last_bound src n). lia.
Qed.

End series.

Section series_claims.
Context `{Host}.

(** Every array of the three series holds at most [MAX_POINTS] elements,
    whatever the payload. *)
Theorem series_within_MAX_POINTS (p : js) (k : nat) :
  let out := (sanitizePayload p k).1 in
  Forall (λ n, (n ≤ MAX_POINTS)%nat)
    [length (st_labels (out_stake out)); length (st_data (out_stake out));
     length (st_moves (out_stake out)); length (st_types (out_stake out));
     length (wd_labels (out_wd out)); length (wd_values (out_wd out));
     length (wd_times (out_wd out));
     length (nw_times (out_nw out)); length (nw_usd (out_nw out));
     length (nw_inj (out_nw out))].
Proof.
  intros out. subst out.
  rewrite sanitizePayload_stake, sanitizePayload_wd, sanitizePayload_nw.
  assert (Hc : ∀ {B} (f : js → B) arr,
             (length (map f (clampArray arr MAX_POINTS)) ≤ MAX_POINTS)%nat).
  { intros B f arr. rewrite length_map. apply clampArray_length. }
  assert (Hs : ∀ {B} (f : js → B) n arr,
             (length (slice_last n (map f (clampArray arr MAX_POINTS)))
              ≤ MAX_POINTS)%nat).
  { intros B f n arr. etrans; [apply slice_last_bound | apply Hc]. }
  destruct (truthy (get p "stake")), (truthy (get p "wd")),
    (truthy (get p "nw"));
    unfold sanitizeStake, sanitizeWd, sanitizeNw, empty_stake, empty_wd,
      empty_nw; cbn [st_labels st_data st_moves st_types wd_labels wd_values
                     wd_times nw_times nw_usd nw_inj length];
    repeat apply Forall_cons_2; try apply Forall_nil_2; cbn beta;
    first [ apply Hc | apply Hs | apply padded_slice_bound; apply Hc
          | apply Nat.le_0_l ].
Qed.

(** C1, at the payload [{stake: {data: [1, 2, 3]}}]: the data array comes
    out with three elements and the labels array with none, so the arrays
    of the stake series do not have one length; at [{nw: {usd: [1, 2]}}] the
    primary array [times] is empty and [usd] keeps its two elements. *)
Theorem stake_labels_not_filled (k : nat) :
  let out := (sanitizePayload stake_data_123 k).1 in
  let out' := (sanitizePayload
                 (VObj [("nw", VObj [("usd", VArr [VNum 1; VNum 2])])]) k).1 in
  st_data (out_stake out) = [1; 2; 3] ∧
  st_labels (out_stake out) = [] ∧
  length (st_labels (out_stake out)) ≠ length (st_data (out_stake out)) ∧
  nw_times (out_nw out') = [] ∧
  nw_usd (out_nw out') = [1; 2].
Proof. repeat split; done. Qed.


End series_claims.



(** ** The event normaliser of api/point.js *)

Section map_set.
Implicit Types (m : list (string * event)) (l : list event) (e : event).

Lemma assoc_map_set key key' e m :
  assoc key' (map_set key e m) =
  if String.eqb key key' then Some e else assoc key' m.
Proof.
  induction m as [|[k0 e0] m IH]; simpl; [done|].
  destruct (String.eqb_spec k0 key) as [->|Hne]; simpl.
  - destruct (String.eqb_spec key key'); done.
  - rewrite IH. destruct (String.eqb_spec k0 key') as [->|]; [|done].
    by destruct (String.eqb_spec key key').
Qed.

Lemma elem_of_keys_map_set x key e m :
  x ∈ (map_set key e m).*1 ↔ x = key ∨ x ∈ m.*1.
Proof.
  induction m as [|[k0 e0] m IH]; simpl.
  - rewrite list_elem_of_singleton, elem_of_nil. tauto.
  - destruct (String.eqb_spec k0 key) as [->|Hne]; simpl.
    + rewrite elem_of_cons. tauto.
    + rewrite !elem_of_cons, IH. tauto.
Qed.

Lemma map_set_NoDup key e m : NoDup m.*1 → NoDup (map_set key e m).*1.
Proof.
  induction m as [|[k0 e0] m IH]; simpl; intros Hnd.
  - apply NoDup_singleton.
  - apply NoDup_cons in Hnd as [Hk0 Hnd].
    destruct (String.eqb_spec k0 key) as [->|Hne]; simpl.
    + by apply NoDup_cons.
    + apply NoDup_cons. split; [|by apply IH].
      rewrite elem_of_keys_map_set. intros [->|?]; done.
Qed.

Lemma map_set_length key e m :
  (length (map_set key e m) ≤ S (length m))%nat.
Proof.
  induction m as [|[k0 e0] m IH]; simpl; [lia|].
  destruct (String.eqb k0 key); simpl; lia.
Qed.

Lemma elem_of_assoc key e m : NoDup m.*1 → (key, e) ∈ m ↔ assoc key m = Some e.
Proof.
  induction m as [|[k0 e0] m IH]; simpl; intros Hnd.
  - split; [by intros ?%elem_of_nil | done].
  - apply NoDup_cons in Hnd as [Hk0 Hnd]. rewrite elem_of_cons, IH by done.
    destruct (String.eqb_spec k0 key) as [->|Hne].
    + split.
      * intros [[= <-]|Hin]; [done|].
        destruct Hk0. apply IH in Hin; [|done].
        apply (list_elem_of_fmap_2 fst) in Hin. done.
      * intros [= ->]. by left.
    + split; [intros [[= ? ?]|?]; [congruence | done] | by right].
Qed.

Lemma dedup_snoc l e : dedup (l ++ [e]) = map_set (ev_id e) e (dedup l).
Proof. unfold dedup. by rewrite fold_left_app. Qed.

Lemma last_with_id_snoc i l e :
  last_with_id i (l ++ [e]) =
  if String.eqb (ev_id e) i then Some e else last_with_id i l.
Proof.
  unfold last_with_id. rewrite filter_app.
  destruct (String.eqb_spec (ev_id e) i) as [Heq|Hne].
  - rewrite filter_cons_True, filter_nil by done. apply last_snoc.
  - rewrite filter_cons_False, filter_nil by done. by rewrite app_nil_r.
Qed.

(** The map holds, for every id, the last event submitted with it. *)
Lemma assoc_dedup i l : assoc i (dedup l) = last_with_id i l.
Proof.
  induction l as [|e l IH] using rev_ind; [done|].
  by rewrite dedup_snoc, assoc_map_set, last_with_id_snoc, IH.
Qed.

Lemma dedup_NoDup l : NoDup (dedup l).*1.
Proof.
  induction l as [|e l IH] using rev_ind; [apply NoDup_nil_2|].
  rewrite dedup_snoc. by apply map_set_NoDup.
Qed.

Lemma dedup_length l : (length (dedup l) ≤ length l)%nat.
Proof.
  induction l as [|e l IH] using rev_ind; [done|].
  rewrite dedup_snoc, length_app. simpl.
  pose proof (map_set_length (ev_id e) e (dedup l)). lia.
Qed.

Lemma last_with_id_Some i l e :
  last_with_id i l = Some e → e ∈ l ∧ ev_id e = i.
Proof.
  unfold last_with_id. intros Hlast.
  assert (Hin : e ∈ filter (λ e, ev_id e = i) l).
  { destruct (filter _ l) as [|x xs] using rev_ind; [done|].
    rewrite last_snoc in Hlast. injection Hlast as ->.
    apply elem_of_app. right. apply list_elem_of_here. }
  apply list_elem_of_filter in Hin. tauto.
Qed.

Lemma last_with_id_is_Some l e : e ∈ l → is_Some (last_with_id (ev_id e) l).
Proof.
  intros Hin. unfold last_with_id.
  assert (Hf : e ∈ filter (λ x, ev_id x = ev_id e) l).
  { by apply list_elem_of_filter. }
  destruct (filter _ l) as [|x xs] using rev_ind.
  - by apply elem_of_nil in Hf.
  - rewrite last_snoc. by eexists.
Qed.

(** Membership in the values of the map. *)
Lemma elem_of_values_dedup l e :
  e ∈ map_values (dedup l) ↔ last_with_id (ev_id e) l = Some e.
Proof.
  unfold map_values. change (map snd (dedup l)) with ((dedup l).*2).
  rewrite list_elem_of_fmap. split.
  - intros ([k e'] & -> & Hin). simpl.
    apply elem_of_assoc in Hin; [|apply dedup_NoDup].
    rewrite assoc_dedup in Hin.
    destruct (last_with_id_Some _ _ _ Hin) as [_ ->]. done.
  - intros Hlast. exists (ev_id e, e). split; [done|].
    apply elem_of_assoc; [apply dedup_NoDup|]. by rewrite assoc_dedup.
Qed.

(** The ids of the values are the keys, so no id stands twice. *)
Lemma values_dedup_ids l : ev_id <$> map_values (dedup l) = (dedup l).*1.
Proof.
  unfold map_values. change (map snd (dedup l)) with ((dedup l).*2).
  rewrite <- list_fmap_compose. apply list_fmap_ext.
  intros j [k e] Hj. simpl.
  apply list_elem_of_lookup_2 in Hj.
  apply elem_of_assoc in Hj; [|apply dedup_NoDup].
  rewrite assoc_dedup in Hj. by destruct (last_with_id_Some _ _ _ Hj).
Qed.

Lemma values_dedup_NoDup l : NoDup (ev_id <$> map_values (dedup l)).
Proof. rewrite values_dedup_ids. apply dedup_NoDup. Qed.

End map_set.

Section sort.
Implicit Types (l : list event) (x e : event) (t : Z).


Lemma insert_by_perm {A} (cmp : A → A → Z) (x : A) (l : list A) :
  insert_by cmp x l ≡ₚ x :: l.
Proof.
  induction l as [|y l IH]; simpl; [done|].
  destruct (0 <? cmp x y); [|done].
  rewrite IH. apply Permutation_swap.
Qed.

Lemma sort_by_perm {A} (cmp : A → A → Z) (l : list A) : sort_by cmp l ≡ₚ l.
Proof.
  induction l as [|y l IH]; simpl; [done|].
  by rewrite insert_by_perm, IH.
Qed.







End sort.

Section events.
Context `{Host}.

Lemma sanitizeEvents_eq evs k :
  (sanitizeEvents evs k).1 =
  clamp (sort_by byTs (map_values (dedup (mapM sanitizeEvent evs k).1)))
    MAX_EVENTS.
Proof.
  unfold sanitizeEvents, mbind, clock_bind.
  by destruct (mapM sanitizeEvent evs k).
Qed.

Lemma sanitizePayload_events p k :
  out_events (sanitizePayload p k).1 =
  clamp (sort_by byTs (map_values (dedup (cleaned_of p k)))) MAX_EVENTS.
Proof.
  unfold sanitizePayload, cleaned_of, mbind, clock_bind, Date_now.
  destruct (get p "events"); simpl; try done.
  rewrite <- sanitizeEvents_eq. by destruct (sanitizeEvents _ _).
Qed.

(** The stored events are a suffix of the sorted values of the map. *)
Lemma out_events_suffix p k :
  out_events (sanitizePayload p k).1
  `suffix_of` sort_by byTs (map_values (dedup (cleaned_of p k))).
Proof. rewrite sanitizePayload_events. apply clamp_suffix. Qed.

Lemma elem_of_out_events p k e :
  e ∈ out_events (sanitizePayload p k).1 →
  last_with_id (ev_id e) (cleaned_of p k) = Some e.
Proof.
  intros Hin. apply elem_of_values_dedup.
  rewrite <- (sort_by_perm byTs).
  destruct (out_events_suffix p k) as [dropped ->] in Hin |- *.
  apply elem_of_app. by right.
Qed.

Lemma out_events_NoDup p k :
  NoDup (ev_id <$> out_events (sanitizePayload p k).1).
Proof.
  apply (sublist_NoDup _
           (ev_id <$> sort_by byTs (map_values (dedup (cleaned_of p k))))).
  - rewrite sort_by_perm. apply values_dedup_NoDup.
  - destruct (out_events_suffix p k) as [dropped ->].
    rewrite fmap_app. by apply sublist_inserts_l.
Qed.

End events.

Section counting.
Implicit Types (l : list event) (e : event) (i : string).

Lemma count_id_absent i l : i ∉ ev_id <$> l → count_id i l = 0%nat.
Proof.
  unfold count_id. induction l as [|x l IH]; simpl; [done|].
  rewrite not_elem_of_cons. intros [Hne Hl].
  rewrite filter_cons_False by done. by apply IH.
Qed.

Lemma count_id_NoDup i l : NoDup (ev_id <$> l) → (count_id i l ≤ 1)%nat.
Proof.
  induction l as [|x l IH]; simpl; [unfold count_id; simpl; lia|].
  rewrite NoDup_cons. intros [Hx Hl]. unfold count_id in *.
  rewrite filter_cons. case_decide as Hi; [|by apply IH].
  subst i. simpl. pose proof (count_id_absent _ _ Hx) as H0.
  unfold count_id in H0. lia.
Qed.

Lemma count_id_elem_of e l : e ∈ l → (1 ≤ count_id (ev_id e) l)%nat.
Proof.
  intros Hin. unfold count_id.
  assert (Hf : e ∈ filter (λ x, ev_id x = ev_id e) l).
  { by apply list_elem_of_filter. }
  destruct (filter _ l); [by apply elem_of_nil in Hf | simpl; lia].
Qed.

End counting.

Section event_claims.
Context `{Host}.

(** C7, as amended: no id stands twice among the stored events; a stored
    event is the last one submitted with its id (the later submission's
    fields win); and when the payload has at most [MAX_EVENTS] distinct ids,
    every submitted id is stored exactly once.  (With more ids the oldest
    events are cut off, and an id may be stored not at all.) *)
Theorem events_upsert_by_id (p : js) (k : nat) :
  let out := out_events (sanitizePayload p k).1 in
  let cleaned := cleaned_of p k in
  NoDup (ev_id <$> out) ∧
  (∀ i, (count_id i out ≤ 1)%nat) ∧
  (∀ e, e ∈ out → last_with_id (ev_id e) cleaned = Some e) ∧
  ((length (dedup cleaned) ≤ MAX_EVENTS)%nat →
   ∀ e, e ∈ cleaned →
        count_id (ev_id e) out = 1%nat ∧
        ∃ e', e' ∈ out ∧ last_with_id (ev_id e) cleaned = Some e').
Proof.
  intros out cleaned. subst out cleaned.
  pose proof (out_events_NoDup p k) as Hnd.
  split; [done|]. split; [intros i; by apply count_id_NoDup|].
  split; [apply elem_of_out_events|].
  intros Hlen e He.
  destruct (last_with_id_is_Some _ _ He) as [e' He'].
  assert (Hin : e' ∈ out_events (sanitizePayload p k).1).
  { rewrite sanitizePayload_events, clamp_short.
    - rewrite sort_by_perm. apply elem_of_values_dedup.
      destruct (last_with_id_Some _ _ _ He') as [_ ->]. done.
    - rewrite sort_by_perm. unfold map_values. by rewrite length_map. }
  destruct (last_with_id_Some _ _ _ He') as [_ Hid].
  split; [|by exists e'].
  pose proof (count_id_NoDup (ev_id e) _ Hnd).
  pose proof (count_id_elem_of _ _ Hin) as Hge. rewrite Hid in Hge. lia.
Qed.


End event_claims.

(** C7, as the claim has it: the event with id [x] is submitted twice and
    not stored once, but not at all. *)
Lemma resubmitted_event_not_stored :
  let out :=
    out_events (sanitizePayload (H := example_host 0) resubmitted_then_many 0%nat).1 in
  count_id "x" (cleaned_of (H := example_host 0) resubmitted_then_many 0%nat) = 2%nat ∧
  count_id "x" out = 0%nat ∧
  length out = MAX_EVENTS.
Proof. vm_compute. done. Qed.

(** C7, the instance: the second submission of [a] wins and is stored
    once. *)
Lemma events_upsert_by_id_witness :
  let p := VObj [("events",
                  VArr [VObj [("ts", VNum 5); ("id", VStr "a"); ("title", VStr "old")];
                        ev 3 "b";
                        VObj [("ts", VNum 4); ("id", VStr "a"); ("title", VStr "new")]])] in
  let out := out_events (sanitizePayload (H := example_host 0) p 0%nat).1 in
  (ev_title <$> out) = ["event"; "new"] ∧
  ∀ e, e ∈ cleaned_of (H := example_host 0) p 0%nat →
       count_id (ev_id e) out = 1%nat ∧
       ∃ e', e' ∈ out ∧
             last_with_id (ev_id e) (cleaned_of (H := example_host 0) p 0%nat) = Some e'.
Proof.
  split; [reflexivity|].
  apply (proj2 (proj2 (proj2 (events_upsert_by_id (H := example_host 0) _ 0%nat)))).
  vm_compute. lia.
Defined.

(** ** Further properties of the normaliser *)

Section more.
Context `{Host}.

(** At most [MAX_EVENTS] events are stored. *)
Theorem events_within_MAX_EVENTS (p : js) (k : nat) :
  (length (out_events (sanitizePayload p k).1) ≤ MAX_EVENTS)%nat.
Proof. rewrite sanitizePayload_events, clamp_length. lia. Qed.

(** The document carries version 2 and, as its time, a reading of the clock
    taken after the payload was read: nothing of the caller's. *)
Theorem snapshot_version_and_time (p : js) (k : nat) :
  out_v (sanitizePayload p k).1 = 2 ∧
  ∃ k', (k < k')%nat ∧ out_t (sanitizePayload p k).1 = clock k' ∧
        (sanitizePayload p k).2 = S k'.
Proof.
  unfold sanitizePayload, mbind, clock_bind, Date_now.
  assert (Hmono : ∀ evs j, (j ≤ (mapM sanitizeEvent evs j).2)%nat).
  { induction evs as [|e evs IH]; intros j; simpl; [done|].
    unfold mbind, clock_bind, sanitizeEvent at 1, mbind, clock_bind.
    destruct (toNum (get e "ts") =? 0); simpl.
    - specialize (IH (S j)). destruct (mapM sanitizeEvent evs (S j)). simpl in *. lia.
    - specialize (IH j). destruct (mapM sanitizeEvent evs j). simpl in *. lia. }
  destruct (get p "events") as [| | | | |evs|]; simpl;
    try (split; [done|]; exists (S k); split; [lia | done]).
  unfold sanitizeEvents, mbind, clock_bind.
  specialize (Hmono evs (S k)).
  destruct (mapM sanitizeEvent evs (S k)) as [cleaned k1]. simpl in *.
  split; [done|]. exists k1. split; [lia | done].
Qed.

(** The labels of the stake and wd series are cut to the last elements, at
    most as many as the primary array has, and never filled. *)
Theorem labels_only_cut (p : js) (k : nat) :
  let out := (sanitizePayload p k).1 in
  (length (st_data (out_stake out)) ≠ 0%nat →
   st_labels (out_stake out)
   `suffix_of` map (λ x, toStr x 48)
                 (clampArray (get (get p "stake") "labels") MAX_POINTS) ∧
   length (st_labels (out_stake out))
   = Nat.min (length (st_data (out_stake out)))
       (length (clampArray (get (get p "stake") "labels") MAX_POINTS))) ∧
  (length (wd_values (out_wd out)) ≠ 0%nat →
   wd_labels (out_wd out)
   `suffix_of` map (λ x, toStr x 48)
                 (clampArray (get (get p "wd") "labels") MAX_POINTS) ∧
   length (wd_labels (out_wd out))
   = Nat.min (length (wd_values (out_wd out)))
       (length (clampArray (get (get p "wd") "labels") MAX_POINTS))).
Proof.
  intros out. subst out. rewrite sanitizePayload_stake, sanitizePayload_wd.
  split.
  - destruct (truthy (get p "stake")); [|done].
    unfold sanitizeStake; cbn [st_data st_labels]. intros Hn.
    split; [apply slice_last_suffix|].
    rewrite slice_last_length by done. by rewrite !length_map.
  - destruct (truthy (get p "wd")); [|done].
    unfold sanitizeWd; cbn [wd_values wd_labels]. intros Hn.
    split; [apply slice_last_suffix|].
    rewrite slice_last_length by done. by rewrite !length_map.
Qed.

End more.

Section reproducible.
Context (H1 H2 : Host) (Hsame : same_numbers H1 H2).

Lemma toNum_same x : @toNum H1 x = @toNum H2 x.
Proof.
  unfold toNum, Number_. destruct x; try done; by rewrite Hsame.
Qed.

Lemma sanitizeEvent_same e k1 k2 :
  @toNum H1 (get e "ts") ≠ 0 →
  (@sanitizeEvent H1 e k1).1 = (@sanitizeEvent H2 e k2).1 ∧
  (@sanitizeEvent H1 e k1).2 = k1 ∧ (@sanitizeEvent H2 e k2).2 = k2.
Proof.
  intros Hts. unfold sanitizeEvent, mbind, clock_bind.
  rewrite <- !toNum_same.
  destruct (Z.eqb_spec (@toNum H1 (get e "ts")) 0); [done|]. done.
Qed.

Lemma mapM_sanitizeEvent_same evs k1 k2 :
  Forall (λ e, @toNum H1 (get e "ts") ≠ 0) evs →
  (mapM (@sanitizeEvent H1) evs k1).1 = (mapM (@sanitizeEvent H2) evs k2).1.
Proof.
  intros Hall. revert k1 k2.
  induction Hall as [|e evs He Hall IH]; intros k1 k2; simpl; [done|].
  unfold mbind, clock_bind.
  destruct (sanitizeEvent_same e k1 k2 He) as (Hev & Hk1 & Hk2).
  destruct (@sanitizeEvent H1 e k1) as [ev1 j1].
  destruct (@sanitizeEvent H2 e k2) as [ev2 j2]. simpl in *. subst.
  specialize (IH k1 k2).
  destruct (mapM (@sanitizeEvent H1) evs k1), (mapM (@sanitizeEvent H2) evs k2).
  simpl in *. by subst.
Qed.

(** When every event carries a time stamp, the stored events do not depend
    on the clock: two runs on one payload store the same events in the same
    order. *)
Theorem events_reproducible (p : js) (k1 k2 : nat) :
  @timestamped H1 p →
  out_events (@sanitizePayload H1 p k1).1 = out_events (@sanitizePayload H2 p k2).1.
Proof.
  intros Hts. rewrite !sanitizePayload_events. unfold cleaned_of, timestamped in *.
  destruct (get p "events"); try done.
  by rewrite (mapM_sanitizeEvent_same _ (S k1) (S k2) Hts).
Qed.

End reproducible.

(** Two runs on the ordering example, an hour apart. *)
Lemma events_reproducible_witness :
  out_events (sanitizePayload (H := example_host 0) events_5_3_5 0%nat).1
  = out_events (sanitizePayload (H := example_host 3600000) events_5_3_5 7%nat).1.
Proof.
  apply events_reproducible; [done|].
  unfold timestamped. simpl.
  repeat (apply Forall_cons_2; [discriminate|]). apply Forall_nil_2.
Defined.

End PointSpec.

(** ** Strings *)

Lemma length_append (s1 s2 : string) :
  String.length (s1 ++ s2) = (String.length s1 + String.length s2)%nat.
Proof. induction s1 as [|c s1 IH]; simpl; [done | by rewrite IH]. Qed.

Lemma append_nil_r (s : string) : (s ++ "")%string = s.
Proof.
  induction s as [|c s IH]; [done|].
  change (String c (s ++ "") = String c s). by rewrite IH.
Qed.

Lemma append_assoc (s1 s2 s3 : string) :
  ((s1 ++ s2) ++ s3)%string = (s1 ++ s2 ++ s3)%string.
Proof.
  induction s1 as [|c s1 IH]; [done|].
  change (String c ((s1 ++ s2) ++ s3) = String c (s1 ++ s2 ++ s3)).
  by rewrite IH.
Qed.


(** ** The body ceiling of api/point.js *)

Module PointBody.
Import Point Examples.

Section ceiling.
Context `{Host} `{Json js}.








(** A GET with a valid address answers 200 with [ok: true] whatever the
    store holds: a missing blob, a failed fetch, an empty text and a text
    that is not JSON all read as [data: null]. *)
Theorem get_always_ok req st k :
  method req = "GET" →
  normalizeAddr (get (query req) "address") ≠ "" →
  statusCode (handler req st k).1.1 = 200 ∧
  get (body (handler req st k).1.1) "ok" = VBool true ∧
  ((∀ txt, readBlobTextByPathname st
             (pathname_of (normalizeAddr (get (query req) "address")))
           = Some txt → parse txt = None) →
   get (body (handler req st k).1.1) "data" = VNull).
Proof.
  intros Hm Haddr. unfold handler. rewrite Hm. simpl.
  destruct (String.eqb_spec (normalizeAddr (get (query req) "address")) "");
    [done|].
  destruct (readBlobTextByPathname st _) as [[|c txt]|]; simpl; try done.
  split; [done|]. split; [done|].
  intros Hcorrupt. by rewrite (Hcorrupt _ eq_refl).
Qed.


End ceiling.


(** The instance: a GET on an empty store. *)
Lemma get_always_ok_witness :
  statusCode (handler (H := example_host 0) (H0 := only_null) point_get ∅ 0%nat).1.1
  = 200 ∧
  get (body (handler (H := example_host 0) (H0 := only_null) point_get ∅ 0%nat).1.1)
    "ok" = VBool true ∧
  ((∀ txt, readBlobTextByPathname ∅
             (pathname_of (normalizeAddr (get (query point_get) "address")))
           = Some txt → parse (Json := only_null) txt = None) →
   get (body (handler (H := example_host 0) (H0 := only_null) point_get ∅ 0%nat).1.1)
     "data" = VNull).
Proof.
  apply (get_always_ok (H := example_host 0) (H0 := only_null) point_get ∅ 0%nat);
    [reflexivity | vm_compute; discriminate].
Defined.


End PointBody.

(** ** The session reducer of api/track.js *)

Module TrackSpec.
Import Track Examples.

Section find.
Implicit Types (sessions ss : list session) (s : session) (sid : string).

Lemma find_Some sid sessions i s :
  find sid sessions = Some (i, s) ↔
  sessions !! i = Some s ∧ sessionId s = sid ∧
  ∀ j y, sessions !! j = Some y → (j < i)%nat → sessionId y ≠ sid.
Proof. unfold find. apply (list_find_Some (λ x, sessionId x = sid)). Qed.

(** Updating the record found, without touching its id, leaves it the
    record found. *)
Lemma find_insert sid sessions i s s' :
  find sid sessions = Some (i, s) →
  sessionId s' = sid →
  find sid (<[i := s']> sessions) = Some (i, s').
Proof.
  rewrite !find_Some. intros (Hi & Hs & Hbefore) Hs'. split; [|split].
  - apply list_lookup_insert_eq. by eapply lookup_lt_Some.
  - done.
  - intros j y Hj Hlt. rewrite list_lookup_insert_ne in Hj by lia.
    by eapply Hbefore.
Qed.

(** A record pushed for an id that no record has is found at the end. *)
Lemma find_push sid sessions s :
  find sid sessions = None →
  sessionId s = sid →
  find sid (sessions ++ [s]) = Some (length sessions, s).
Proof.
  intros Hnone Hs. unfold find in *.
  rewrite list_find_app_r by done. simpl.
  rewrite decide_True by done. simpl. done.
Qed.

Lemma insert_last sessions s s' :
  <[length sessions := s']> (sessions ++ [s]) = sessions ++ [s'].
Proof.
  rewrite insert_app_r_alt by lia.
  by replace (length sessions - length sessions)%nat with 0%nat by lia.
Qed.

Lemma MAX_SESSIONS_pos : (0 < MAX_SESSIONS)%nat.
Proof. unfold MAX_SESSIONS. lia. Qed.

(** The cap cuts at the front: the last record stays. *)
Lemma cap_last sessions s : last (cap (sessions ++ [s])) = Some s.
Proof.
  unfold cap. pose proof MAX_SESSIONS_pos.
  destruct (_ <? _)%nat; [|apply last_snoc].
  rewrite length_app. simpl.
  rewrite drop_app_le by lia. apply last_snoc.
Qed.

Lemma cap_within sessions :
  (length sessions ≤ MAX_SESSIONS)%nat → cap sessions = sessions.
Proof.
  intros Hle. unfold cap.
  by destruct (Nat.ltb_spec MAX_SESSIONS (length sessions)); [lia|].
Qed.

End find.

Lemma num_or_self (z : Z) : num_or z 0 = z.
Proof. unfold num_or. destruct (Z.eqb_spec z 0); lia. Qed.



Section reducer.
Implicit Types (p : payload) (sessions ss : list session) (s : session).

Lemma reduce_end_found p sid did ts sessions i s :
  p_type p = "end" →
  find sid sessions = Some (i, s) →
  reduce p sid did ts sessions = Some (<[i := ended p ts s]> sessions) ∧
  find sid (<[i := ended p ts s]> sessions) = Some (i, ended p ts s).
Proof.
  intros Hty Hfind. split.
  - unfold reduce, find_or_push. by rewrite Hty, Hfind.
  - apply (find_insert _ _ _ s); [done|].
    apply find_Some in Hfind. simpl. tauto.
Qed.

Lemma reduce_end_fresh p sid did ts sessions :
  p_type p = "end" →
  find sid sessions = None →
  let s := end_record sid did ts (str_or (p_reason p) "end") in
  reduce p sid did ts sessions = Some (sessions ++ [s]) ∧
  find sid (sessions ++ [s]) = Some (length sessions, s).
Proof.
  intros Hty Hfind s. split.
  - unfold reduce, find_or_push. rewrite Hty, Hfind. simpl.
    rewrite insert_last. unfold s, end_record, set_endReason. simpl.
    rewrite num_or_self, Z.max_id. unfold num_or.
    by destruct (Z.eqb_spec ts 0); subst.
  - by apply find_push.
Qed.

End reducer.

Section reducer_claims.
Context `{Host}.
Implicit Types (p : payload) (sessions : list session) (s : session).

(** C4, what the code does on a retried start: the record found keeps its
    [startTs] when that is set, and its [lastTs] is set to the [ts] of the
    event, whatever it was before. *)
Theorem start_retry_sets_lastTs p sid did ts sessions i s :
  p_type p = "start" →
  find sid sessions = Some (i, s) →
  ∃ s', reduce p sid did ts sessions = Some (<[i := s']> sessions) ∧
        find sid (<[i := s']> sessions) = Some (i, s') ∧
        startTs s' = num_or (startTs s) ts ∧
        lastTs s' = ts.
Proof.
  intros Hty Hfind.
  exists (set_lastTs ts (set_startTs (num_or (startTs s) ts) s)).
  split; [|split; [|done]].
  - unfold reduce. by rewrite Hty, Hfind.
  - apply (find_insert _ _ _ s); [done|].
    apply find_Some in Hfind. simpl. tauto.
Qed.


(** C9: a beat for a session id that has no record.  The reducer pushes a
    record with empty [page] and [deviceInfo], counts the beat on it, and the
    record has [beats = 1] and [startTs = lastTs = ts]; the cap on the
    collection, which cuts at the front, keeps it. *)
Theorem beat_before_start p sid did ts sessions :
  p_type p = "beat" →
  find sid sessions = None →
  let created := beat_record sid did ts in
  reduce p sid did ts sessions = Some (sessions ++ [created]) ∧
  find sid (sessions ++ [created]) = Some (length sessions, created) ∧
  last (cap (sessions ++ [created])) = Some created ∧
  beats created = 1 ∧ startTs created = ts ∧ lastTs created = ts ∧
  page created = "" ∧ deviceInfo created = VObj [].
Proof.
  intros Hty Hfind created. split; [|split; [|split]].
  - unfold reduce, find_or_push. rewrite Hty, Hfind. simpl.
    rewrite insert_last. unfold created, beat_record, set_beats. simpl.
    by rewrite num_or_self, Z.max_id.
  - by apply find_push.
  - apply cap_last.
  - done.
Qed.


End reducer_claims.

(** C4, at a start retried with [ts = 60] for a session last seen at 100:
    [lastTs] goes down to 60. *)
Lemma start_retry_lowers_lastTs :
  lastTs seen_at_100 = 100 ∧
  ∃ s', reduce (event_of "start" "s1" "d1" (Some 60) "") "s1" "d1" 60 [seen_at_100]
        = Some (<[0%nat := s']> [seen_at_100]) ∧
        find "s1" (<[0%nat := s']> [seen_at_100]) = Some (0%nat, s') ∧
        startTs s' = num_or (startTs seen_at_100) 60 ∧
        lastTs s' = 60.
Proof.
  split; [reflexivity|].
  apply (start_retry_sets_lastTs _ "s1" "d1" 60 [seen_at_100] 0%nat seen_at_100);
    reflexivity.
Defined.


(** C9, the instance: a beat at 7 for a session with no record, in a
    collection that holds another session. *)
Lemma beat_before_start_witness :
  reduce (event_of "beat" "s2" "d2" (Some 7) "") "s2" "d2" 7 [seen_at_100]
  = Some ([seen_at_100] ++ [beat_record "s2" "d2" 7]) ∧
  find "s2" ([seen_at_100] ++ [beat_record "s2" "d2" 7])
  = Some (1%nat, beat_record "s2" "d2" 7) ∧
  last (cap ([seen_at_100] ++ [beat_record "s2" "d2" 7]))
  = Some (beat_record "s2" "d2" 7) ∧
  beats (beat_record "s2" "d2" 7) = 1 ∧
  startTs (beat_record "s2" "d2" 7) = 7 ∧
  lastTs (beat_record "s2" "d2" 7) = 7 ∧
  page (beat_record "s2" "d2" 7) = "" ∧
  deviceInfo (beat_record "s2" "d2" 7) = VObj [].
Proof.
  apply (beat_before_start (event_of "beat" "s2" "d2" (Some 7) "")
           "s2" "d2" 7 [seen_at_100]); reflexivity.
Defined.


(** ** The handler of api/track.js *)

Section handler.
Context `{Host} `{Json payload} `{Json (list session)} `{Json (gmap string string)}.

(** GET on a sessions document that is not JSON: [r.json()] throws in
    [readJsonOr], and the handler's [catch] answers 500. *)
Lemma get_corrupt_sessions req st k txt :
  str_or (method req) "GET" = "GET" →
  st !! SESSIONS_KEY = Some (Blob true txt) →
  parse (A := list session) txt = None →
  (handler req st k).1 = (json 500 (RThrown (SyntaxError txt)), []).
Proof.
  intros Hm Hst Hparse. unfold handler, readJsonOr.
  rewrite Hm. simpl. by rewrite Hst, Hparse.
Qed.

(** GET on documents that are JSON: 200 with what they hold. *)
Lemma get_documents req st k :
  str_or (method req) "GET" = "GET" →
  ∀ sessions names,
    readJsonOr [] st SESSIONS_KEY = inr sessions →
    readJsonOr ∅ st NAMES_KEY = inr names →
    (handler req st k).1 = (json 200 (RData sessions names (clock k)), []).
Proof.
  intros Hm sessions names Hs Hn. unfold handler.
  rewrite Hm. simpl. by rewrite Hs, Hn.
Qed.


(** POST of a start, beat or end that the reducer accepts: the collection
    the reducer returns is capped and written, and the answer is 200. *)
Lemma post_reduced req st k p sessions ss :
  method req = "POST" →
  streamed req ≠ "" →
  Z.of_nat (String.length (streamed req)) ≤ MAX_BODY_BYTES →
  parse (streamed req) = Some p →
  p_type p ≠ "name" →
  readJsonOr [] st SESSIONS_KEY = inr sessions →
  p_sessionId p ≠ "" → p_deviceId p ≠ "" →
  reduce p (p_sessionId p) (p_deviceId p) (event_ts p k).1 sessions = Some ss →
  (handler req st k).1 =
  (json 200 ROk,
   [JsonParse (streamed req);
    writeJson (Some (fallback (cap ss))) SESSIONS_KEY (cap ss)]).
Proof.
  intros Hm Hne Hlen Hparse Hty Hread Hsid Hdid Hred.
  unfold handler, streamed in *. rewrite Hm. simpl.
  destruct (String.eqb_spec (String.concat "" (chunks req)) ""); [done|].
  destruct (Z.ltb_spec MAX_BODY_BYTES
              (Z.of_nat (String.length (String.concat "" (chunks req)))));
    [lia|].
  rewrite Hparse. destruct (String.eqb_spec (p_type p) "name"); [done|].
  rewrite Hread. unfold mbind, clock_bind.
  destruct (event_ts p k) as [ts k'] eqn:Hts. simpl in Hred.
  apply String.eqb_neq in Hsid, Hdid.
  unfold str_or. rewrite Hsid, Hdid, Hsid, Hdid. simpl. by rewrite Hred.
Qed.


End handler.

(** ** Further properties of the reducer *)

Section more.
Implicit Types (p : payload) (sessions : list session).

(** A start for a session id that has no record pushes a record with
    [startTs = lastTs = ts], no beats and no end, and the page and device
    information of the event. *)
Theorem start_creates_record p sid did ts sessions :
  p_type p = "start" →
  find sid sessions = None →
  let created :=
    {| sessionId := sid; deviceId := did; startTs := ts; lastTs := ts;
       endTs := None; beats := 0; page := p_page p;
       deviceInfo := js_or (p_deviceInfo p) (VObj []); endReason := None |} in
  reduce p sid did ts sessions = Some (sessions ++ [created]) ∧
  find sid (sessions ++ [created]) = Some (length sessions, created).
Proof.
  intros Hty Hfind created. split; [|by apply find_push].
  unfold reduce. rewrite Hty, Hfind. simpl.
  unfold created, str_or. by destruct (String.eqb_spec (p_page p) "") as [->|].
Qed.

(** A type other than start, beat and end is refused, and the collection is
    not touched. *)
Theorem unknown_type_refused p sid did ts sessions :
  p_type p ≠ "start" → p_type p ≠ "beat" → p_type p ≠ "end" →
  reduce p sid did ts sessions = None.
Proof.
  intros Hs Hb He. unfold reduce.
  apply String.eqb_neq in Hs, Hb, He. by rewrite Hs, Hb, He.
Qed.

(** An update in place does not change which record another session id
    finds. *)
Lemma find_insert_other sid sid' sessions i (s s' : session) :
  sessions !! i = Some s →
  sessionId s = sid → sessionId s' = sid → sid' ≠ sid →
  find sid' (<[i := s']> sessions) = find sid' sessions.
Proof.
  intros Hi Hs Hs' Hne.
  destruct (find sid' sessions) as [[j y]|] eqn:Hfind.
  - apply find_Some in Hfind as (Hj & Hy & Hbefore). apply find_Some.
    assert (i ≠ j) by (intros ->; congruence).
    split; [by rewrite list_lookup_insert_ne|]. split; [done|].
    intros j' y' Hj' Hlt.
    destruct (decide (i = j')) as [<-|Hij].
    + rewrite list_lookup_insert_eq in Hj' by by eapply lookup_lt_Some.
      congruence.
    + rewrite list_lookup_insert_ne in Hj' by done. by eapply Hbefore.
  - unfold find in *. apply list_find_None. apply list_find_None in Hfind.
    apply Forall_insert; [done | congruence].
Qed.

Lemma find_push_other sid sid' sessions (s : session) :
  sessionId s = sid → sid' ≠ sid →
  find sid' (sessions ++ [s]) = find sid' sessions.
Proof.
  intros Hs Hne. unfold find.
  destruct (list_find (λ x, sessionId x = sid') sessions) as [[j y]|] eqn:Hfind.
  - by apply list_find_app_l.
  - rewrite list_find_app_r by done. simpl.
    rewrite decide_False by congruence. done.
Qed.

Lemma find_or_push_spec sid fresh sessions :
  sessionId fresh = sid →
  ∃ i s ss,
    find_or_push sid fresh sessions = (i, s, ss) ∧
    ss !! i = Some s ∧ sessionId s = sid ∧
    (ss = sessions ∨ (ss = sessions ++ [fresh] ∧ find sid sessions = None)).
Proof.
  intros Hfresh. unfold find_or_push.
  destruct (find sid sessions) as [[i s]|] eqn:Hfind.
  - apply find_Some in Hfind as (Hi & Hs & _).
    exists i, s, sessions. auto.
  - exists (length sessions), fresh, (sessions ++ [fresh]).
    split; [done|]. split; [|auto].
    rewrite lookup_app_r by lia.
    by replace (length sessions - length sessions)%nat with 0%nat by lia.
Qed.

(** The reducer touches the record of the session of the event and no
    other: any other session id finds the record it found before. *)
Theorem reduce_leaves_other_sessions p sid did ts sessions ss' sid' :
  reduce p sid did ts sessions = Some ss' →
  sid' ≠ sid →
  find sid' ss' = find sid' sessions.
Proof.
  unfold reduce. intros Hred Hne.
  destruct (String.eqb (p_type p) "start").
  { destruct (find sid sessions) as [[i s]|] eqn:Hfind; injection Hred as <-.
    - apply find_Some in Hfind as (Hi & Hs & _).
      by apply (find_insert_other sid sid' sessions i s).
    - by apply (find_push_other sid). }
  assert (Hstep : ∀ fresh (f : session → session),
            sessionId fresh = sid →
            (∀ s, sessionId (f s) = sessionId s) →
            ∀ i s ss, find_or_push sid fresh sessions = (i, s, ss) →
                      find sid' (<[i := f s]> ss) = find sid' sessions).
  { intros fresh f Hfresh Hf i s ss Heq.
    destruct (find_or_push_spec sid fresh sessions Hfresh)
      as (i0 & s0 & ss0 & Heq0 & Hi & Hs & Hss).
    rewrite Heq in Heq0. injection Heq0 as -> -> ->.
    rewrite (find_insert_other sid sid' ss0 i0 s0) by (rewrite ?Hf; done).
    destruct Hss as [->|[-> _]]; [done | by apply (find_push_other sid)]. }
  destruct (String.eqb (p_type p) "beat").
  { destruct (find_or_push sid _ sessions) as [[i s] ss] eqn:Heq.
    injection Hred as <-.
    by refine (Hstep _ (λ s, set_beats (num_or (beats (set_lastTs
                 (Z.max (num_or (lastTs s) 0) ts) s)) 0 + 1)
                 (set_lastTs (Z.max (num_or (lastTs s) 0) ts) s))
                 _ _ i s ss Heq). }
  destruct (String.eqb (p_type p) "end"); [|done].
  destruct (find_or_push sid _ sessions) as [[i s] ss] eqn:Heq.
  injection Hred as <-.
  by refine (Hstep _ (ended p ts) _ _ i s ss Heq).
Qed.

(** Session ids stay unique: a collection in which no id stands twice is
    reduced to such a collection. *)
Theorem reduce_keeps_ids_unique p sid did ts sessions ss' :
  NoDup (sessionId <$> sessions) →
  reduce p sid did ts sessions = Some ss' →
  NoDup (sessionId <$> ss').
Proof.
  intros Hnd. unfold reduce. intros Hred.
  assert (Hins : ∀ i s s' (ss : list session),
            ss !! i = Some s → sessionId s' = sessionId s →
            sessionId <$> <[i := s']> ss = sessionId <$> ss).
  { intros i s s' ss Hi Hs. rewrite list_fmap_insert, Hs.
    apply list_insert_id. by rewrite list_lookup_fmap, Hi. }
  assert (Hpush : ∀ fresh, sessionId fresh = sid → find sid sessions = None →
            NoDup (sessionId <$> sessions ++ [fresh])).
  { intros fresh Hfresh Hnone. rewrite fmap_app. apply NoDup_app.
    split; [done|]. split; [|apply NoDup_singleton].
    intros x Hx Hx'. apply list_elem_of_singleton in Hx'. subst x.
    unfold find in Hnone. apply list_find_None in Hnone.
    apply list_elem_of_fmap in Hx as (y & Hy & Hin).
    rewrite Forall_forall in Hnone. apply (Hnone y Hin). congruence. }
  assert (Hstep : ∀ fresh (f : session → session),
            sessionId fresh = sid →
            (∀ s, sessionId (f s) = sessionId s) →
            ∀ i s ss, find_or_push sid fresh sessions = (i, s, ss) →
                      NoDup (sessionId <$> <[i := f s]> ss)).
  { intros fresh f Hfresh Hf i s ss Heq.
    destruct (find_or_push_spec sid fresh sessions Hfresh)
      as (i0 & s0 & ss0 & Heq0 & Hi & Hs & Hss).
    rewrite Heq in Heq0. injection Heq0 as -> -> ->.
    rewrite (Hins i0 s0) by (rewrite ?Hf; done).
    destruct Hss as [->|[-> Hnone]]; [done | by apply Hpush]. }
  destruct (String.eqb (p_type p) "start").
  { destruct (find sid sessions) as [[i s]|] eqn:Hfind; injection Hred as <-.
    - apply find_Some in Hfind as (Hi & Hs & _).
      by rewrite (Hins i s).
    - by apply Hpush. }
  destruct (String.eqb (p_type p) "beat").
  { destruct (find_or_push sid _ sessions) as [[i s] ss] eqn:Heq.
    injection Hred as <-.
    by refine (Hstep _ (λ s, set_beats (num_or (beats (set_lastTs
                 (Z.max (num_or (lastTs s) 0) ts) s)) 0 + 1)
                 (set_lastTs (Z.max (num_or (lastTs s) 0) ts) s))
                 _ _ i s ss Heq). }
  destruct (String.eqb (p_type p) "end"); [|done].
  destruct (find_or_push sid _ sessions) as [[i s] ss] eqn:Heq.
  injection Hred as <-.
  by refine (Hstep _ (ended p ts) _ _ i s ss Heq).
Qed.

(** The cap keeps the last [MAX_SESSIONS] records. *)
Theorem cap_keeps_the_newest sessions :
  (length (cap sessions) ≤ MAX_SESSIONS)%nat ∧
  cap sessions `suffix_of` sessions ∧
  ((length sessions ≤ MAX_SESSIONS)%nat → cap sessions = sessions).
Proof.
  split; [|split].
  - unfold cap. destruct (Nat.ltb_spec MAX_SESSIONS (length sessions)); [|lia].
    rewrite length_drop. lia.
  - unfold cap. destruct (_ <? _)%nat; [apply suffix_drop | done].
  - apply cap_within.
Qed.

End more.

(** The instances: a start for a session with no record, and an event of
    type "pause". *)
Lemma start_creates_record_witness :
  reduce (event_of "start" "s9" "d9" (Some 4) "") "s9" "d9" 4 [seen_at_100]
  = Some [seen_at_100;
          {| sessionId := "s9"; deviceId := "d9"; startTs := 4; lastTs := 4;
             endTs := None; beats := 0; page := ""; deviceInfo := VObj [];
             endReason := None |}].
Proof.
  apply (start_creates_record (event_of "start" "s9" "d9" (Some 4) "")
           "s9" "d9" 4 [seen_at_100]); reflexivity.
Defined.

Lemma unknown_type_refused_witness :
  reduce (event_of "pause" "s1" "d1" (Some 4) "") "s1" "d1" 4 [seen_at_100] = None.
Proof.
  apply unknown_type_refused; discriminate.
Defined.

(** The instances: the beat for the unknown session [s2] leaves the record
    of [s1] where it was, and the two ids stay distinct. *)
Lemma reduce_leaves_other_sessions_witness :
  find "s1" ([seen_at_100] ++ [beat_record "s2" "d2" 7])
  = find "s1" [seen_at_100].
Proof.
  apply (reduce_leaves_other_sessions (event_of "beat" "s2" "d2" (Some 7) "")
           "s2" "d2" 7 [seen_at_100] _ "s1"); [reflexivity | discriminate].
Defined.

Lemma reduce_keeps_ids_unique_witness :
  NoDup (sessionId <$> [seen_at_100] ++ [beat_record "s2" "d2" 7]).
Proof.
  apply (reduce_keeps_ids_unique (event_of "beat" "s2" "d2" (Some 7) "")
           "s2" "d2" 7 [seen_at_100]); [|reflexivity].
  apply (bool_decide_unpack _). vm_compute. exact I.
Defined.

(** A beat for an unknown session through the handler: the body is parsed,
    the record is created, and the collection that holds it is written. *)
Lemma post_reduced_witness :
  (handler (H := example_host 1000) (H0 := only_a_beat)
     (H1 := only_no_sessions) (H2 := only_no_names) (track_post "beat") ∅ 0%nat).1
  = (json 200 ROk,
     [JsonParse "beat";
      writeJson (H := only_no_sessions)
        (Some (fallback (H := example_host 1000) [beat_record "s1" "d1" 1000]))
        SESSIONS_KEY [beat_record "s1" "d1" 1000]]).
Proof.
  apply (post_reduced (H := example_host 1000) (H0 := only_a_beat)
           (H1 := only_no_sessions) (H2 := only_no_names)
           (track_post "beat") ∅ 0%nat
           (event_of "beat" "s1" "d1" None "") [] [beat_record "s1" "d1" 1000]);
    try reflexivity; try discriminate.
Defined.


End TrackSpec.

(** ** The two endpoints side by side *)

Module Endpoints.
Import Examples.

Section endpoints.
Context `{Host} `{Json js} `{Json Track.payload} `{Json (list Track.session)}
  `{Json (gmap string string)}.

(** A GET of the snapshot endpoint on a stored text that is not JSON
    answers 200 with [data: null]. *)
Lemma point_get_corrupt req st k txt :
  Point.method req = "GET" →
  Point.normalizeAddr (get (Point.query req) "address") ≠ "" →
  st !! Point.pathname_of (Point.normalizeAddr (get (Point.query req) "address"))
  = Some (Point.Blob true txt) →
  parse (A := js) txt = None →
  (Point.handler req st k).1.1
  = Point.json 200 (VObj [("ok", VBool true); ("data", VNull)]).
Proof.
  intros Hm Haddr Hst Hparse. unfold Point.handler. rewrite Hm. simpl.
  destruct (String.eqb_spec
              (Point.normalizeAddr (get (Point.query req) "address")) "");
    [done|].
  unfold Point.readBlobTextByPathname. rewrite Hst.
  destruct txt; [done|]. by rewrite Hparse.
Qed.

(** C3, what the code does on a stored document that is not JSON: the
    snapshot GET answers 200 with [data: null]; the tracking GET does not
    answer 200 with the empty collection, it answers 500 with the error that
    [r.json()] threw. *)
Theorem corrupt_document_on_read (txt : string) (k : nat) :
  (∀ req st,
     Point.method req = "GET" →
     Point.normalizeAddr (get (Point.query req) "address") ≠ "" →
     st !! Point.pathname_of
             (Point.normalizeAddr (get (Point.query req) "address"))
     = Some (Point.Blob true txt) →
     parse (A := js) txt = None →
     (Point.handler req st k).1.1
     = Point.json 200 (VObj [("ok", VBool true); ("data", VNull)])) ∧
  (∀ req st,
     Track.str_or (Track.method req) "GET" = "GET" →
     st !! Track.SESSIONS_KEY = Some (Track.Blob true txt) →
     parse (A := list Track.session) txt = None →
     (Track.handler req st k).1.1
     = Track.json 500 (Track.RThrown (Track.SyntaxError txt))).
Proof.
  split.
  - intros req st. apply point_get_corrupt.
  - intros req st Hm Hst Hparse.
    by rewrite (TrackSpec.get_corrupt_sessions req st k txt Hm Hst Hparse).
Qed.


End endpoints.



(** C3, the instance: the text [{oops] under both keys. *)
Lemma corrupt_document_on_read_witness :
  (Point.handler (H := example_host 0) (H0 := only_null) point_get
     {[ Point.pathname_of "inj1qqqqqqqqqqqqqqqqqqqqqqqq" := Point.Blob true "{oops" ]}
     0%nat).1.1
  = Point.json 200 (VObj [("ok", VBool true); ("data", VNull)]) ∧
  (Track.handler (H := example_host 0) (H0 := only_a_beat)
     (H1 := only_no_sessions) (H2 := only_no_names)
     {| Track.method := "GET"; Track.chunks := [] |}
     {[ Track.SESSIONS_KEY := Track.Blob true "{oops" ]} 0%nat).1.1
  = Track.json 500 (Track.RThrown (Track.SyntaxError "{oops")).
Proof.
  destruct (corrupt_document_on_read (H := example_host 0) (H0 := only_null)
              (H1 := only_a_beat) (H2 := only_no_sessions)
              (H3 := only_no_names) "{oops" 0%nat) as [HP HT].
  split.
  - apply HP; [reflexivity | vm_compute; discriminate
               | vm_compute; reflexivity | reflexivity].
  - apply HT; [reflexivity | vm_compute; reflexivity | reflexivity].
Defined.



End Endpoints.

(** ** The strings of a stored document, and the address *)

Module PointStrings.
Import Point Examples.

Lemma str_take_length n s : (String.length (str_take n s) ≤ n)%nat.
Proof.
  unfold str_take. revert s. induction n as [|n IH]; intros [|c s]; simpl; try lia.
  specialize (IH s). lia.
Qed.

Lemma toStr_length x n : (String.length (toStr x n) ≤ n)%nat.
Proof.
  unfold toStr.
  destruct (Nat.ltb_spec n (String.length (String_ (nullish x (VStr ""))))).
  - apply str_take_length.
  - done.
Qed.

Section bounds.
Context `{Host}.

Lemma sanitizeEvent_bounded e k : bounded_event (sanitizeEvent e k).1.
Proof.
  unfold sanitizeEvent, mbind, clock_bind.
  destruct (toNum (get e "ts") =? 0); simpl;
    repeat split; apply toStr_length.
Qed.

Lemma mapM_sanitizeEvent_bounded evs k :
  Forall bounded_event (mapM sanitizeEvent evs k).1.
Proof.
  revert k. induction evs as [|e evs IH]; intros k; simpl; [done|].
  unfold mbind, clock_bind.
  pose proof (sanitizeEvent_bounded e k) as He.
  destruct (sanitizeEvent e k) as [ev k1]. specialize (IH k1).
  destruct (mapM sanitizeEvent evs k1). simpl in *. by constructor.
Qed.

Lemma cleaned_of_bounded p k : Forall bounded_event (cleaned_of p k).
Proof.
  unfold cleaned_of. destruct (get p "events"); try done.
  apply mapM_sanitizeEvent_bounded.
Qed.

Lemma Forall_suffix {A} (P : A → Prop) (l1 l2 : list A) :
  l1 `suffix_of` l2 → Forall P l2 → Forall P l1.
Proof. intros [l ->] Hall. by apply Forall_app in Hall as [_ ?]. Qed.

Lemma unshift_while_Forall {A} (P : A → Prop) n d (l : list A) :
  P d → Forall P l → Forall P (unshift_while n d l).
Proof.
  intros Hd Hl. rewrite unshift_while_spec. apply Forall_app. split; [|done].
  by apply Forall_replicate.
Qed.

Lemma toStr_all (xs : list js) n :
  Forall (λ s, (String.length s ≤ n)%nat) (map (λ x, toStr x n) xs).
Proof. apply Forall_fmap, Forall_true. intros x. apply toStr_length. Qed.

(** Every string of the stored document is bounded: the fields of an event
    by the lengths [sanitizeEvent] cuts them to, a label by 48 characters, a
    type of the stake series by 40 (the placeholder has 12). *)
Theorem stored_strings_bounded (p : js) (k : nat) :
  let out := (sanitizePayload p k).1 in
  Forall bounded_event (out_events out) ∧
  Forall (λ s, (String.length s ≤ 48)%nat) (st_labels (out_stake out)) ∧
  Forall (λ s, (String.length s ≤ 40)%nat) (st_types (out_stake out)) ∧
  Forall (λ s, (String.length s ≤ 48)%nat) (wd_labels (out_wd out)).
Proof.
  intros out. subst out. split; [|split; [|split]].
  - apply Forall_forall. intros e He.
    apply PointSpec.elem_of_out_events, PointSpec.last_with_id_Some in He as [He _].
    pose proof (cleaned_of_bounded p k) as Hall.
    rewrite Forall_forall in Hall. by apply Hall.
  - rewrite PointSpec.sanitizePayload_stake.
    destruct (truthy (get p "stake")); [|by constructor].
    unfold sanitizeStake; cbn [st_labels].
    eapply Forall_suffix; [apply slice_last_suffix | apply toStr_all].
  - rewrite PointSpec.sanitizePayload_stake.
    destruct (truthy (get p "stake")); [|by constructor].
    unfold sanitizeStake; cbn [st_types].
    apply unshift_while_Forall; [simpl; lia|].
    eapply Forall_suffix; [apply slice_last_suffix | apply toStr_all].
  - rewrite PointSpec.sanitizePayload_wd.
    destruct (truthy (get p "wd")); [|by constructor].
    unfold sanitizeWd; cbn [wd_labels].
    eapply Forall_suffix; [apply slice_last_suffix | apply toStr_all].
Qed.

End bounds.

Lemma replace_ws_no_space b s : no_space (replace_ws b s) = true.
Proof.
  revert b. induction s as [|c s IH]; intros b; simpl; [done|].
  destruct (Ascii.is_space c) eqn:Hc.
  - destruct b; simpl; by rewrite ?IH.
  - simpl. by rewrite Hc, IH.
Qed.

Lemma str_take_no_space n s : no_space s = true → no_space (str_take n s) = true.
Proof.
  unfold str_take. revert s. induction n as [|n IH]; intros [|c s]; simpl; try done.
  intros [Hc Hs]%andb_prop. by rewrite Hc, IH.
Qed.

Section derived_id.
Context `{Host}.

(** An event that comes without an id is given one with no white space in
    it. *)
Theorem derived_id_has_no_space (e : js) (k : nat) :
  truthy (get e "id") = false →
  no_space (ev_id (sanitizeEvent e k).1) = true.
Proof.
  intros Hid. unfold sanitizeEvent, mbind, clock_bind.
  assert (Hany : ∀ s, no_space (toStr (js_or (get e "id")
                                        (VStr (replace_ws false s))) 120) = true).
  { intros s. unfold js_or. rewrite Hid. unfold toStr. cbn [nullish String_].
    destruct (_ <? _)%nat; [apply str_take_no_space|]; apply replace_ws_no_space. }
  destruct (toNum (get e "ts") =? 0); simpl; apply Hany.
Qed.

End derived_id.

(** The instance: the event [{ts: 7, title: "price  alert"}] is given the
    id [7:event:price_alert]. *)
Lemma derived_id_has_no_space_witness :
  ev_id (sanitizeEvent (H := example_host 0) price_alert 0%nat).1
  = "7:event:price_alert" ∧
  no_space (ev_id (sanitizeEvent (H := example_host 0) price_alert 0%nat).1)
  = true.
Proof.
  split; [reflexivity|].
  apply (derived_id_has_no_space (H := example_host 0)). reflexivity.
Defined.

(** *** The address *)

Lemma is_alnum_not_space c : is_alnum c = true → Ascii.is_space c = false.
Proof. destruct c as [[] [] [] [] [] [] [] []]; vm_compute; done. Qed.

Lemma all_alnum_rev_app s acc :
  all_alnum (String.rev_app s acc) = all_alnum s && all_alnum acc.
Proof.
  revert acc. induction s as [|c s IH]; intros acc; simpl; [done|].
  rewrite IH. simpl. destruct (is_alnum c), (all_alnum s); done.
Qed.

Lemma rev_app_rev_app s a b :
  String.rev_app (String.rev_app s a) b = String.rev_app a (s ++ b)%string.
Proof.
  revert a b. induction s as [|c s IH]; intros a b; simpl; [done|].
  by rewrite IH.
Qed.

Lemma ltrim_alnum s : all_alnum s = true → ltrim s = s.
Proof.
  destruct s as [|c s]; simpl; [done|]. intros [Hc _]%andb_prop.
  by rewrite is_alnum_not_space.
Qed.

Lemma trim_alnum s : all_alnum s = true → trim s = s.
Proof.
  intros Hs. unfold trim, String.rev. rewrite (ltrim_alnum s Hs).
  rewrite ltrim_alnum by (by rewrite all_alnum_rev_app, Hs).
  rewrite rev_app_rev_app. simpl. apply append_nil_r.
Qed.

Lemma letter_alnum (lower upper c : ascii) :
  is_alnum lower = true → is_alnum upper = true →
  letter lower upper c = true → is_alnum c = true.
Proof.
  intros Hl Hu. unfold letter.
  intros [->%Ascii.eqb_eq| ->%Ascii.eqb_eq]%orb_prop; done.
Qed.

Lemma addr_re_shape s :
  addr_re s = true →
  all_alnum s = true ∧ (23 ≤ String.length s ≤ 83)%nat.
Proof.
  destruct s as [|a [|b [|c r]]]; try done. unfold addr_re.
  intros [[[[[Ha Hb]%andb_prop Hc]%andb_prop Hr]%andb_prop Hge]%andb_prop Hle]%andb_prop.
  apply Nat.leb_le in Hge, Hle.
  split; [|simpl; lia].
  simpl. rewrite Hr.
  rewrite (letter_alnum "i" "I" a), (letter_alnum "n" "N" b),
    (letter_alnum "j" "J" c); done.
Qed.

(** An address that is accepted has 23 to 83 characters, all of them
    letters and digits, so the pathname made of it has no separator of the
    caller's; and an accepted address is accepted again as it is. *)
Theorem accepted_address_is_plain (a : js) :
  normalizeAddr a = "" ∨
  (addr_re (normalizeAddr a) = true ∧
   all_alnum (normalizeAddr a) = true ∧
   (23 ≤ String.length (normalizeAddr a) ≤ 83)%nat ∧
   normalizeAddr (VStr (normalizeAddr a)) = normalizeAddr a).
Proof.
  assert (Hcases : normalizeAddr a = "" ∨
                   ∃ s, normalizeAddr a = s ∧ addr_re s = true).
  { unfold normalizeAddr.
    destruct (addr_re (trim _)) eqn:Hre; [right; by eexists | by left]. }
  destruct Hcases as [->|(s & -> & Hre)]; [by left | right].
  destruct (addr_re_shape s Hre) as [Halnum Hlen].
  split; [done|]. split; [done|]. split; [done|].
  assert (Hs : s ≠ "") by (intros Heq; by rewrite Heq in Hre).
  unfold normalizeAddr, js_or. cbn [truthy].
  apply String.eqb_neq in Hs. rewrite Hs. cbn [negb String_].
  by rewrite (trim_alnum s Halnum), Hre.
Qed.

End PointStrings.

(** ** What the snapshot endpoint reads and writes *)

Module PointStore.
Import Point Examples.

Lemma append_inj_r (s a b : string) : (a ++ s)%string = (b ++ s)%string → a = b.
Proof.
  intros Heq.
  assert (Hlen : String.length a = String.length b).
  { apply (f_equal String.length) in Heq. rewrite !length_append in Heq. lia. }
  revert b Heq Hlen. induction a as [|c a IH]; intros [|c' b] Heq Hlen; try done.
  change (String c (a ++ s) = String c' (b ++ s)) in Heq.
  injection Heq as -> Heq. f_equal. apply IH; [done|]. simpl in Hlen. lia.
Qed.

Lemma pathname_of_inj a b : pathname_of a = pathname_of b → a = b.
Proof.
  unfold pathname_of. rewrite !append_assoc. intros Heq.
  apply String.app_inj in Heq. by apply append_inj_r in Heq.
Qed.

Section body.
Context `{Host} `{Json js}.



(** What a request writes: nothing, or one blob under the pathname of its
    address. *)
Lemma point_trace req st k :
  (∀ p t, BlobPut p t ∉ (handler req st k).1.2) ∨
  (method req = "POST" ∧
   statusCode (handler req st k).1.1 = 200 ∧
   normalizeAddr (get (query req) "address") ≠ "" ∧
   ∃ raw parsed,
     readRawBody req = Some raw ∧ raw ≠ "" ∧ parse raw = Some parsed ∧
     (handler req st k).1.2 =
     [JsonParse raw;
      BlobPut (pathname_of (normalizeAddr (get (query req) "address")))
        (stringify (js_snapshot (sanitizePayload parsed k).1))]).
Proof.
  unfold handler.
  destruct (String.eqb_spec (method req) "OPTIONS") as [|_];
    [left; intros p t Hin; simpl in Hin; by apply elem_of_nil in Hin|].
  destruct (String.eqb_spec (normalizeAddr (get (query req) "address")) "")
    as [|Haddr];
    [left; intros p t Hin; simpl in Hin; by apply elem_of_nil in Hin|].
  destruct (String.eqb_spec (method req) "GET") as [|_].
  { left. intros p t Hin.
    destruct (readBlobTextByPathname st _) as [[|c txt]|]; simpl in Hin;
      repeat (apply elem_of_cons in Hin as [Hin|Hin]; [discriminate|]);
      by apply elem_of_nil in Hin. }
  destruct (String.eqb_spec (method req) "POST") as [Hpost|_];
    [|left; intros p t Hin; simpl in Hin; by apply elem_of_nil in Hin].
  destruct (readRawBody req) as [[|c raw]|] eqn:Hraw;
    [left; intros p t Hin; simpl in Hin; by apply elem_of_nil in Hin| |
     left; intros p t Hin; simpl in Hin; by apply elem_of_nil in Hin].
  destruct (parse (String c raw)) as [parsed|] eqn:Hparse.
  - right. unfold mbind, clock_bind.
    destruct (sanitizePayload parsed k) as [clean k1] eqn:Hclean. simpl.
    split; [done|]. split; [done|]. split; [done|].
    exists (String c raw), parsed. by rewrite Hclean.
  - left. intros p t Hin. simpl in Hin.
    repeat (apply elem_of_cons in Hin as [Hin|Hin]; [discriminate|]).
    by apply elem_of_nil in Hin.
Qed.

(** A blob is put only by a POST that is answered 200, only under the
    pathname of the address of the request, and it holds the normalised
    document. *)
Theorem blob_put_only_by_accepted_post req st k p t :
  BlobPut p t ∈ (handler req st k).1.2 →
  method req = "POST" ∧
  statusCode (handler req st k).1.1 = 200 ∧
  addr_re (normalizeAddr (get (query req) "address")) = true ∧
  p = pathname_of (normalizeAddr (get (query req) "address")) ∧
  ∃ raw parsed,
    readRawBody req = Some raw ∧ parse raw = Some parsed ∧
    t = stringify (js_snapshot (sanitizePayload parsed k).1).
Proof.
  intros Hin.
  destruct (point_trace req st k)
    as [Hnone|(Hm & Hcode & Haddr & raw & parsed & Hraw & _ & Hparse & Htrace)].
  { by destruct (Hnone p t). }
  rewrite Htrace in Hin.
  apply elem_of_cons in Hin as [?|Hin]; [done|].
  apply list_elem_of_singleton in Hin. injection Hin as -> ->.
  split; [done|]. split; [done|]. split; [|split; [done|by exists raw, parsed]].
  revert Haddr. unfold normalizeAddr.
  destruct (addr_re (trim _)) eqn:Hre; [by rewrite Hre | done].
Qed.

Lemma commit_handler req st k :
  commit st (handler req st k).1.2 = st ∨
  normalizeAddr (get (query req) "address") ≠ "" ∧
  ∃ t, commit st (handler req st k).1.2
       = <[pathname_of (normalizeAddr (get (query req) "address")) := Blob true t]> st.
Proof.
  destruct (point_trace req st k)
    as [Hnone|(_ & _ & Haddr & raw & parsed & _ & _ & _ & Htrace)].
  - left. revert Hnone. generalize (handler req st k).1.2. intros effs.
    revert st. induction effs as [|[txt|p t] effs IH]; intros st Hnone; [done| |].
    + simpl. apply IH. intros p t Hin. apply (Hnone p t). by right.
    + destruct (Hnone p t). by left.
  - right. split; [done|]. rewrite Htrace. by eexists.
Qed.

(** The snapshot of an address is owned by that address: whatever a request
    for one address does, a request for another address is answered as it
    would have been before. *)
Theorem other_address_untouched first second st k k' :
  normalizeAddr (get (query second) "address")
  ≠ normalizeAddr (get (query first) "address") →
  handler second (commit st (handler first st k).1.2) k' = handler second st k'.
Proof.
  intros Hne.
  destruct (commit_handler first st k) as [->|[Haddr [t ->]]]; [done|].
  unfold handler.
  destruct (String.eqb (method second) "OPTIONS"); [done|].
  destruct (String.eqb (normalizeAddr (get (query second) "address")) "");
    [done|].
  destruct (String.eqb (method second) "GET"); [|done].
  unfold readBlobTextByPathname. rewrite lookup_insert_ne; [done|].
  intros Heq. apply pathname_of_inj in Heq. congruence.
Qed.


End body.


Lemma blob_put_only_by_accepted_post_witness :
  method (point_post_streamed "in") = "POST" ∧
  statusCode (handler (H := example_host 0) (H0 := round_trip_json 0)
                (point_post_streamed "in") ∅ 0%nat).1.1 = 200 ∧
  addr_re (normalizeAddr (get (query (point_post_streamed "in")) "address"))
  = true ∧
  pathname_of "inj1qqqqqqqqqqqqqqqqqqqqqqqq"
  = pathname_of (normalizeAddr (get (query (point_post_streamed "in")) "address")) ∧
  ∃ raw parsed,
    readRawBody (H := round_trip_json 0) (point_post_streamed "in") = Some raw ∧
    parse (Json := round_trip_json 0) raw = Some parsed ∧
    "doc" = stringify (Json := round_trip_json 0)
              (js_snapshot (sanitizePayload (H := example_host 0) parsed 0%nat).1).
Proof.
  apply (blob_put_only_by_accepted_post (H := example_host 0)
           (H0 := round_trip_json 0) (point_post_streamed "in") ∅ 0%nat
           (pathname_of "inj1qqqqqqqqqqqqqqqqqqqqqqqq") "doc").
  vm_compute. apply list_elem_of_further, list_elem_of_here.
Defined.

Lemma other_address_untouched_witness :
  handler (H := example_host 0) (H0 := round_trip_json 0) point_get_other
    (commit ∅
       (handler (H := example_host 0) (H0 := round_trip_json 0)
          (point_post_streamed "in") ∅ 0%nat).1.2) 1%nat
  = handler (H := example_host 0) (H0 := round_trip_json 0) point_get_other
      ∅ 1%nat.
Proof.
  apply other_address_untouched. vm_compute. discriminate.
Defined.

End PointStore.

(** ** The life of a session *)

Module TrackLife.
Import Track Examples.

Section reducer.
Implicit Types (p : payload) (sessions ss : list session) (s : session).

Lemma num_or_idem (z d : Z) : num_or (num_or z d) d = num_or z d.
Proof. unfold num_or. destruct (Z.eqb_spec z 0); [|by destruct (Z.eqb_spec z 0)].
  by destruct (Z.eqb_spec d 0). Qed.

Lemma reduce_start_found p sid did ts sessions i s :
  p_type p = "start" →
  find sid sessions = Some (i, s) →
  reduce p sid did ts sessions
  = Some (<[i := set_lastTs ts (set_startTs (num_or (startTs s) ts) s)]> sessions).
Proof. intros Hty Hfind. unfold reduce. by rewrite Hty, Hfind. Qed.

Lemma reduce_beat_found p sid did ts sessions i s :
  p_type p = "beat" →
  find sid sessions = Some (i, s) →
  reduce p sid did ts sessions
  = Some (<[i := set_beats (beats s + 1) (set_lastTs (Z.max (lastTs s) ts) s)]> sessions).
Proof.
  intros Hty Hfind. unfold reduce, find_or_push. rewrite Hty, Hfind. simpl.
  by rewrite !TrackSpec.num_or_self.
Qed.

Lemma reduce_start_fresh p sid did ts sessions :
  p_type p = "start" →
  find sid sessions = None →
  let created :=
    {| sessionId := sid; deviceId := did; startTs := ts; lastTs := ts;
       endTs := None; beats := 0; page := p_page p;
       deviceInfo := js_or (p_deviceInfo p) (VObj []); endReason := None |} in
  reduce p sid did ts sessions = Some (sessions ++ [created]) ∧
  find sid (sessions ++ [created]) = Some (length sessions, created).
Proof.
  intros Hty Hfind created. split; [|by apply TrackSpec.find_push].
  unfold reduce. rewrite Hty, Hfind. simpl.
  unfold created, str_or. by destruct (String.eqb_spec (p_type p) "") as [|];
    destruct (String.eqb_spec (p_page p) "") as [->|].
Qed.

(** A start or an end that is sent again changes nothing. *)
Theorem retried_start_or_end_changes_nothing p sid did ts sessions ss1 :
  p_type p = "start" ∨ p_type p = "end" →
  reduce p sid did ts sessions = Some ss1 →
  reduce p sid did ts ss1 = Some ss1.
Proof.
  intros [Hty|Hty] Hred.
  - destruct (find sid sessions) as [[i s]|] eqn:Hfind.
    + rewrite (reduce_start_found _ _ _ _ _ i s Hty Hfind) in Hred.
      injection Hred as <-.
      assert (Hi : (i < length sessions)%nat).
      { apply TrackSpec.find_Some in Hfind as [Hi _]. by eapply lookup_lt_Some. }
      rewrite (reduce_start_found _ _ _ _ _ i
                 (set_lastTs ts (set_startTs (num_or (startTs s) ts) s)) Hty).
      * rewrite list_insert_insert_eq. do 2 f_equal.
        destruct s; unfold set_lastTs, set_startTs; simpl. by rewrite num_or_idem.
      * apply (TrackSpec.find_insert _ _ _ s); [done|].
        apply TrackSpec.find_Some in Hfind. simpl. tauto.
    + destruct (reduce_start_fresh p sid did ts sessions Hty Hfind)
        as [Hred' Hfind'].
      rewrite Hred' in Hred. injection Hred as <-.
      rewrite (reduce_start_found _ _ _ _ _ _ _ Hty Hfind').
      rewrite TrackSpec.insert_last. do 3 f_equal.
      unfold set_lastTs, set_startTs; simpl. f_equal.
      unfold num_or. by destruct (ts =? 0).
  - destruct (find sid sessions) as [[i s]|] eqn:Hfind.
    + destruct (TrackSpec.reduce_end_found p sid did ts sessions i s Hty Hfind)
        as [Hred' Hfind'].
      rewrite Hred' in Hred. injection Hred as <-.
      destruct (TrackSpec.reduce_end_found p sid did ts _ i _ Hty Hfind')
        as [-> _].
      rewrite list_insert_insert_eq. do 2 f_equal.
      destruct s as [? ? ? l e ? ? ? ?]; unfold ended, set_endReason, set_endTs, set_lastTs; simpl.
      f_equal.
      * rewrite !TrackSpec.num_or_self. lia.
      * f_equal. destruct e as [z|]; simpl; [apply num_or_idem|].
        unfold num_or. by destruct (ts =? 0).
    + destruct (TrackSpec.reduce_end_fresh p sid did ts sessions Hty Hfind)
        as [Hred' Hfind'].
      rewrite Hred' in Hred. injection Hred as <-.
      destruct (TrackSpec.reduce_end_found p sid did ts _ _ _ Hty Hfind')
        as [-> _].
      rewrite TrackSpec.insert_last. do 3 f_equal.
      unfold ended, end_record, set_endReason, set_endTs, set_lastTs; simpl.
      f_equal.
      * rewrite TrackSpec.num_or_self. lia.
      * f_equal. unfold num_or. by destruct (ts =? 0).
Qed.

(** What the reducer does to the record it finds: the record stays where
    it is, and what identifies the session stays as it is. *)
Lemma reduce_found p sid did ts sessions ss' i s :
  reduce p sid did ts sessions = Some ss' →
  find sid sessions = Some (i, s) →
  ∃ s', ss' = <[i := s']> sessions ∧ find sid ss' = Some (i, s') ∧
        sessionId s' = sid ∧ deviceId s' = deviceId s ∧ page s' = page s ∧
        deviceInfo s' = deviceInfo s ∧
        startTs s' = (if String.eqb (p_type p) "start"
                      then num_or (startTs s) ts else startTs s) ∧
        lastTs s' = (if String.eqb (p_type p) "start"
                     then ts else Z.max (lastTs s) ts).
Proof.
  intros Hred Hfind.
  assert (Hsid : sessionId s = sid).
  { apply TrackSpec.find_Some in Hfind. tauto. }
  assert (Hgen : ∀ s', sessionId s' = sid →
            find sid (<[i := s']> sessions) = Some (i, s')).
  { intros s' Hs'. by apply (TrackSpec.find_insert _ _ _ s). }
  destruct (String.eqb_spec (p_type p) "start") as [Hty|Hnstart].
  { rewrite (reduce_start_found _ _ _ _ _ i s Hty Hfind) in Hred.
    injection Hred as <-. eexists. split; [done|]. split; [by apply Hgen|]. done. }
  destruct (String.eqb_spec (p_type p) "beat") as [Hty|Hnbeat].
  { rewrite (reduce_beat_found _ _ _ _ _ i s Hty Hfind) in Hred.
    injection Hred as <-. eexists. split; [done|]. split; [by apply Hgen|]. done. }
  destruct (String.eqb_spec (p_type p) "end") as [Hty|Hnend].
  { destruct (TrackSpec.reduce_end_found p sid did ts sessions i s Hty Hfind)
      as [Hred' Hfind'].
    rewrite Hred' in Hred. injection Hred as <-.
    eexists. split; [done|]. split; [done|]. simpl.
    by rewrite TrackSpec.num_or_self. }
  unfold reduce in Hred. apply String.eqb_neq in Hnstart, Hnbeat, Hnend.
  by rewrite Hnstart, Hnbeat, Hnend in Hred.
Qed.

(** The record of a session keeps its place, its device, its page and its
    device information whatever events follow, and its [startTs] once that
    is set; the collection keeps its length. *)
Theorem session_identity_is_write_once p sid did ts sessions ss' i s :
  reduce p sid did ts sessions = Some ss' →
  find sid sessions = Some (i, s) →
  ∃ s', find sid ss' = Some (i, s') ∧
        deviceId s' = deviceId s ∧ page s' = page s ∧
        deviceInfo s' = deviceInfo s ∧
        (startTs s ≠ 0 → startTs s' = startTs s) ∧
        length ss' = length sessions.
Proof.
  intros Hred Hfind.
  destruct (reduce_found _ _ _ _ _ _ _ _ Hred Hfind)
    as (s' & -> & Hfind' & _ & Hdev & Hpage & Hinfo & Hstart & _).
  exists s'. split; [done|]. split; [done|]. split; [done|]. split; [done|].
  split; [|by rewrite length_insert].
  intros Hset. rewrite Hstart. destruct (String.eqb (p_type p) "start"); [|done].
  unfold num_or. by destruct (Z.eqb_spec (startTs s) 0).
Qed.




End reducer.

(** The instances: an end sent twice for a session last seen at 100; a
    start from another device for that session; a beat that comes late; and
    a start at 10, beats at 20 and 15, and an end at 30 for a session with no
    record. *)
Lemma retried_start_or_end_changes_nothing_witness :
  reduce (event_of "end" "s1" "d1" (Some 120) "close") "s1" "d1" 120
    [ended (event_of "end" "s1" "d1" (Some 120) "close") 120 seen_at_100]
  = Some [ended (event_of "end" "s1" "d1" (Some 120) "close") 120 seen_at_100].
Proof.
  apply (retried_start_or_end_changes_nothing _ "s1" "d1" 120 [seen_at_100]);
    [right; reflexivity | reflexivity].
Defined.

Lemma session_identity_is_write_once_witness :
  ∃ s', find "s1" [set_lastTs 60 seen_at_100] = Some (0%nat, s') ∧
        deviceId s' = deviceId seen_at_100 ∧ page s' = page seen_at_100 ∧
        deviceInfo s' = deviceInfo seen_at_100 ∧
        (startTs seen_at_100 ≠ 0 → startTs s' = startTs seen_at_100) ∧
        length [set_lastTs 60 seen_at_100] = length [seen_at_100].
Proof.
  apply (session_identity_is_write_once
           (event_of "start" "s1" "d2" (Some 60) "") "s1" "d2" 60
           [seen_at_100] [set_lastTs 60 seen_at_100] 0%nat seen_at_100);
    reflexivity.
Defined.



End TrackLife.

(** ** What the tracking endpoint reads and writes *)

Module TrackStore.
Import Track Examples.

Section handler.
Context `{Host} `{Json payload} `{Json (list session)} `{Json (gmap string string)}.

(** [writeJson] puts one blob, under the pathname it is given. *)
Lemma writeJson_pathname {A} `{Json A} (trimmed : option A) pathname (data : A) :
  ∃ t, writeJson trimmed pathname data = BlobPut pathname t.
Proof.
  unfold writeJson. destruct (_ <? _); [destruct trimmed|]; by eexists.
Qed.

Lemma writeJson_within {A} `{Json A} (trimmed : option A) pathname (data : A) :
  Z.of_nat (String.length (stringify data)) ≤ MAX_BODY_BYTES →
  writeJson trimmed pathname data = BlobPut pathname (stringify data).
Proof.
  intros Hle. unfold writeJson.
  by destruct (Z.ltb_spec MAX_BODY_BYTES (Z.of_nat (String.length (stringify data))));
    [lia|].
Qed.

(** What is written: a sessions document within the ceiling is written
    whole; one past it is cut to its last [floor(0.7 n)] records, and left
    whole when that number is 0; the directory of names is written whole
    whatever its length. *)
Theorem documents_written_whole_or_newest (sessions : list session)
    (names : gmap string string) :
  (∃ kept,
     writeJson (Some (fallback sessions)) SESSIONS_KEY sessions
     = BlobPut SESSIONS_KEY (stringify kept) ∧
     kept `suffix_of` sessions ∧
     (Z.of_nat (String.length (stringify sessions)) ≤ MAX_BODY_BYTES →
      kept = sessions) ∧
     (MAX_BODY_BYTES < Z.of_nat (String.length (stringify sessions)) →
      floor_0_7 (length sessions) ≠ 0%nat →
      length kept = Nat.min (floor_0_7 (length sessions)) (length sessions)) ∧
     (floor_0_7 (length sessions) = 0%nat → kept = sessions)) ∧
  writeJson None NAMES_KEY names = BlobPut NAMES_KEY (stringify names).
Proof.
  split; [|unfold writeJson; by destruct (_ <? _)].
  unfold writeJson.
  destruct (Z.ltb_spec MAX_BODY_BYTES
              (Z.of_nat (String.length (stringify sessions)))) as [Hlt|Hle].
  - exists (fallback sessions). unfold fallback.
    split; [done|]. split; [apply slice_last_suffix|].
    split; [lia|]. split; [intros _ Hn; by apply slice_last_length|].
    intros ->. apply slice_last_zero.
  - exists sessions. split; [done|]. split; [done|]. split; [done|].
    split; [lia | done].
Qed.

Lemma method_post req : str_or (method req) "GET" = "POST" → method req = "POST".
Proof. unfold str_or. by destruct (String.eqb_spec (method req) ""). Qed.

(** What a request writes: nothing, or one blob, the directory of names
    for a name and the sessions document otherwise. *)
Lemma track_trace req st k :
  (∀ p t, BlobPut p t ∉ (handler req st k).1.2) ∨
  (method req = "POST" ∧
   statusCode (handler req st k).1.1 = 200 ∧
   ∃ payload t,
     parse (streamed req) = Some payload ∧
     (handler req st k).1.2 =
     [JsonParse (streamed req);
      BlobPut (if String.eqb (p_type payload) "name" then NAMES_KEY
               else SESSIONS_KEY) t]).
Proof.
  unfold handler, streamed.
  assert (Hnil : ∀ p t, BlobPut p t ∉ @nil effect).
  { intros p t Hin. by apply elem_of_nil in Hin. }
  assert (Hone : ∀ txt p t, BlobPut p t ∉ [JsonParse txt]).
  { intros txt p t Hin. apply list_elem_of_singleton in Hin. discriminate. }
  destruct (String.eqb_spec (str_or (method req) "GET") "GET") as [|_].
  { left. destruct (readJsonOr [] st SESSIONS_KEY); [apply Hnil|].
    destruct (readJsonOr ∅ st NAMES_KEY); apply Hnil. }
  destruct (String.eqb_spec (str_or (method req) "GET") "POST") as [Hpost|_];
    [|left; apply Hnil].
  apply method_post in Hpost. simpl.
  destruct (String.eqb (String.concat "" (chunks req)) ""); [left; apply Hnil|].
  destruct (_ <? _); [left; apply Hnil|].
  destruct (parse (String.concat "" (chunks req))) as [payload|] eqn:Hparse;
    [|left; apply Hone].
  destruct (String.eqb (p_type payload) "name") eqn:Hname.
  - destruct (readJsonOr ∅ st NAMES_KEY) as [e|names]; [left; apply Hone|].
    destruct (String.eqb (p_deviceId payload) ""); [left; apply Hone|].
    destruct (String.eqb _ ""); [left; apply Hone|].
    right. split; [done|]. split; [done|].
    destruct (writeJson_pathname None NAMES_KEY
                (<[p_deviceId payload :=
                     str_take 32 (trim (str_or (p_name payload) ""))]> names))
      as [t Ht].
    exists payload, t. cbn [fst snd]. by rewrite Ht, Hname.
  - destruct (readJsonOr [] st SESSIONS_KEY) as [e|sessions]; [left; apply Hone|].
    unfold mbind, clock_bind. destruct (event_ts payload k) as [ts k1].
    destruct (_ || _); [left; apply Hone|].
    destruct (reduce payload _ _ ts sessions) as [ss|]; [|left; apply Hone].
    right. split; [done|]. split; [done|].
    destruct (writeJson_pathname (Some (fallback (cap ss))) SESSIONS_KEY (cap ss))
      as [t Ht].
    exists payload, t. cbn [fst snd]. by rewrite Ht, Hname.
Qed.

(** A blob is put only by a POST that is answered 200: the directory of
    names by a name, the sessions document by any other event, and nothing
    else. *)
Theorem document_put_only_by_accepted_post req st k p t :
  BlobPut p t ∈ (handler req st k).1.2 →
  method req = "POST" ∧
  statusCode (handler req st k).1.1 = 200 ∧
  ∃ payload,
    parse (streamed req) = Some payload ∧
    p = if String.eqb (p_type payload) "name" then NAMES_KEY else SESSIONS_KEY.
Proof.
  intros Hin.
  destruct (track_trace req st k)
    as [Hnone|(Hm & Hcode & payload & t' & Hparse & Htrace)].
  { by destruct (Hnone p t). }
  rewrite Htrace in Hin.
  apply elem_of_cons in Hin as [?|Hin]; [done|].
  apply list_elem_of_singleton in Hin. injection Hin as -> ->.
  split; [done|]. split; [done|]. by exists payload.
Qed.

(** The round trip: after a start, beat or end that is accepted, a GET
    answers the collection that the reducer returned, capped, provided the
    document is within the ceiling and the printer and the reader of JSON
    agree on it. *)
Theorem event_then_get post fetch st k k' p sessions ss names :
  method post = "POST" →
  streamed post ≠ "" →
  Z.of_nat (String.length (streamed post)) ≤ MAX_BODY_BYTES →
  parse (streamed post) = Some p →
  p_type p ≠ "name" →
  readJsonOr [] st SESSIONS_KEY = inr sessions →
  p_sessionId p ≠ "" → p_deviceId p ≠ "" →
  reduce p (p_sessionId p) (p_deviceId p) (event_ts p k).1 sessions = Some ss →
  Z.of_nat (String.length (stringify (cap ss))) ≤ MAX_BODY_BYTES →
  parse (stringify (cap ss)) = Some (cap ss) →
  str_or (method fetch) "GET" = "GET" →
  readJsonOr ∅ st NAMES_KEY = inr names →
  (handler fetch (commit st (handler post st k).1.2) k').1.1
  = json 200 (RData (cap ss) names (clock k')).
Proof.
  intros Hm Hne Hlen Hparse Hty Hread Hsid Hdid Hred Hdoc Hround Hget Hnames.
  assert (Hwritten :
            (handler post st k).1.2
            = [JsonParse (streamed post);
               BlobPut SESSIONS_KEY (stringify (cap ss))]).
  { unfold handler, streamed in *. rewrite Hm. simpl.
    destruct (String.eqb_spec (String.concat "" (chunks post)) ""); [done|].
    destruct (Z.ltb_spec MAX_BODY_BYTES
                (Z.of_nat (String.length (String.concat "" (chunks post)))));
      [lia|].
    rewrite Hparse. destruct (String.eqb_spec (p_type p) "name"); [done|].
    rewrite Hread. unfold mbind, clock_bind.
    destruct (event_ts p k) as [ts k1]. simpl in Hred.
    apply String.eqb_neq in Hsid, Hdid.
    unfold str_or. rewrite Hsid, Hdid, Hsid, Hdid. simpl. rewrite Hred.
    simpl. by rewrite writeJson_within. }
  rewrite Hwritten. cbn [commit fold_left].
  rewrite (TrackSpec.get_documents fetch _ k' Hget (cap ss) names); [done| |].
  - unfold readJsonOr. by rewrite lookup_insert_eq, Hround.
  - unfold readJsonOr in *. by rewrite lookup_insert_ne.
Qed.

(** An event that lacks its session id or its device id is refused before
    its type is looked at, and a name that lacks its device id, or is blank,
    is refused: 400, nothing written. *)
Theorem incomplete_payload_refused req st k p sessions names :
  method req = "POST" →
  streamed req ≠ "" →
  Z.of_nat (String.length (streamed req)) ≤ MAX_BODY_BYTES →
  parse (streamed req) = Some p →
  (p_type p ≠ "name" →
   readJsonOr [] st SESSIONS_KEY = inr sessions →
   p_sessionId p = "" ∨ p_deviceId p = "" →
   (handler req st k).1
   = (json 400 (RError "Missing sessionId/deviceId"), [JsonParse (streamed req)])) ∧
  (p_type p = "name" →
   readJsonOr ∅ st NAMES_KEY = inr names →
   (p_deviceId p = "" →
    (handler req st k).1
    = (json 400 (RError "Missing deviceId"), [JsonParse (streamed req)])) ∧
   (p_deviceId p ≠ "" → trim (p_name p) = "" →
    (handler req st k).1
    = (json 400 (RError "Empty name"), [JsonParse (streamed req)]))).
Proof.
  intros Hm Hne Hlen Hparse.
  assert (Hhead : ∀ X (a b c : X),
            (if String.eqb (str_or (method req) "GET") "GET" then a
             else if negb (String.eqb (str_or (method req) "GET") "POST") then b
             else c) = c).
  { intros X a b c. by rewrite Hm. }
  unfold handler, streamed in *. rewrite Hhead. cbn zeta.
  destruct (String.eqb_spec (String.concat "" (chunks req)) ""); [done|].
  destruct (Z.ltb_spec MAX_BODY_BYTES
              (Z.of_nat (String.length (String.concat "" (chunks req)))));
    [lia|].
  rewrite Hparse. split.
  - intros Hty Hread Hmiss. apply String.eqb_neq in Hty. rewrite Hty.
    rewrite Hread.
    unfold mbind, clock_bind. destruct (event_ts p k) as [ts k1].
    assert (Hor : String.eqb (str_or (p_sessionId p) "") ""
                  || String.eqb (str_or (p_deviceId p) "") "" = true).
    { unfold str_or. destruct Hmiss as [->| ->]; simpl; [done|].
      apply orb_true_r. }
    by rewrite Hor.
  - intros Hty Hread. rewrite Hty. simpl.
    rewrite Hread. split.
    + intros ->. done.
    + intros Hdid Hblank. apply String.eqb_neq in Hdid. rewrite Hdid.
      assert (Hn : str_or (p_name p) "" = p_name p).
      { unfold str_or. by destruct (String.eqb_spec (p_name p) "") as [->|]. }
      by rewrite Hn, Hblank.
Qed.

End handler.

(** The instances: the beat for an unknown session puts the sessions
    document; a GET after it answers the collection with the record of the
    beat; and a beat with no session id is refused. *)
Lemma document_put_only_by_accepted_post_witness :
  method (track_post "beat") = "POST" ∧
  statusCode (handler (H := example_host 1000) (H0 := only_a_beat)
                (H1 := only_no_sessions) (H2 := only_no_names)
                (track_post "beat") ∅ 0%nat).1.1 = 200 ∧
  ∃ payload,
    parse (Json := only_a_beat) (streamed (track_post "beat")) = Some payload ∧
    SESSIONS_KEY
    = if String.eqb (p_type payload) "name" then NAMES_KEY else SESSIONS_KEY.
Proof.
  apply (document_put_only_by_accepted_post (H := example_host 1000)
           (H0 := only_a_beat) (H1 := only_no_sessions) (H2 := only_no_names)
           (track_post "beat") ∅ 0%nat SESSIONS_KEY "[]").
  vm_compute. apply list_elem_of_further, list_elem_of_here.
Defined.

Lemma event_then_get_witness :
  (handler (H := example_host 1000) (H0 := only_a_beat)
     (H1 := only_one_beat) (H2 := only_no_names)
     {| method := "GET"; chunks := [] |}
     (commit ∅
        (handler (H := example_host 1000) (H0 := only_a_beat)
           (H1 := only_one_beat) (H2 := only_no_names)
           (track_post "beat") ∅ 0%nat).1.2) 1%nat).1.1
  = json 200 (RData (cap [beat_record "s1" "d1" 1000]) ∅ 1001).
Proof.
  apply (event_then_get (H := example_host 1000) (H0 := only_a_beat)
           (H1 := only_one_beat) (H2 := only_no_names)
           (track_post "beat") {| method := "GET"; chunks := [] |} ∅ 0%nat 1%nat
           (event_of "beat" "s1" "d1" None "") [] [beat_record "s1" "d1" 1000] ∅);
    try reflexivity; try discriminate.
Defined.

Lemma incomplete_payload_refused_witness :
  (handler (H := example_host 1000) (H0 := only_a_beat_without_session)
     (H1 := only_no_sessions) (H2 := only_no_names) (track_post "beat") ∅ 0%nat).1
  = (json 400 (RError "Missing sessionId/deviceId"), [JsonParse "beat"]).
Proof.
  apply (incomplete_payload_refused (H := example_host 1000)
           (H0 := only_a_beat_without_session)
           (H1 := only_no_sessions) (H2 := only_no_names)
           (track_post "beat") ∅ 0%nat (event_of "beat" "" "d1" None "") [] ∅);
    try reflexivity; try discriminate.
  by left.
Defined.

End TrackStore.

(** ** A body that is not JSON, on the two endpoints *)

Module EndpointsBody.
Import Examples.

Section body.
Context `{Host} `{Json js} `{Json Track.payload} `{Json (list Track.session)}
  `{Json (gmap string string)}.

(** A POST whose body is not JSON: the snapshot endpoint catches the error
    of [JSON.parse] and answers 400 "Invalid JSON"; the tracking endpoint
    does not, and answers 500 with the error.  Neither writes. *)
Theorem body_that_is_not_json (k : nat) :
  (∀ req st raw,
     Point.method req = "POST" →
     Point.normalizeAddr (get (Point.query req) "address") ≠ "" →
     Point.readRawBody req = Some raw →
     raw ≠ "" →
     parse (A := js) raw = None →
     (Point.handler req st k).1
     = (Point.json 400 (Point.error_body "Invalid JSON"), [Point.JsonParse raw])) ∧
  (∀ req st,
     Track.method req = "POST" →
     Track.streamed req ≠ "" →
     Z.of_nat (String.length (Track.streamed req)) ≤ Track.MAX_BODY_BYTES →
     parse (A := Track.payload) (Track.streamed req) = None →
     (Track.handler req st k).1
     = (Track.json 500 (Track.RThrown (Track.SyntaxError (Track.streamed req))),
        [Track.JsonParse (Track.streamed req)])).
Proof.
  split.
  - intros req st raw Hm Haddr Hraw Hne Hparse. unfold Point.handler.
    rewrite Hm. simpl.
    destruct (String.eqb_spec
                (Point.normalizeAddr (get (Point.query req) "address")) "");
      [done|].
    rewrite Hraw. destruct raw as [|c raw]; [done|]. by rewrite Hparse.
  - intros req st Hm Hne Hlen Hparse.
    unfold Track.handler, Track.streamed in *. rewrite Hm. simpl.
    destruct (String.eqb_spec (String.concat "" (Track.chunks req)) "");
      [done|].
    destruct (Z.ltb_spec Track.MAX_BODY_BYTES
                (Z.of_nat (String.length (String.concat "" (Track.chunks req)))));
      [lia|].
    by rewrite Hparse.
Qed.

End body.

(** The instance: the body [{oops] on both endpoints. *)
Lemma body_that_is_not_json_witness :
  (Point.handler (H := example_host 0) (H0 := only_null)
     (point_post_streamed "{oops") ∅ 0%nat).1
  = (Point.json 400 (Point.error_body "Invalid JSON"), [Point.JsonParse "{oops"]) ∧
  (Track.handler (H := example_host 0) (H0 := only_a_beat)
     (H1 := only_no_sessions) (H2 := only_no_names)
     (track_post "{oops") ∅ 0%nat).1
  = (Track.json 500 (Track.RThrown (Track.SyntaxError "{oops")),
     [Track.JsonParse "{oops"]).
Proof.
  destruct (body_that_is_not_json (H := example_host 0) (H0 := only_null)
              (H1 := only_a_beat) (H2 := only_no_sessions)
              (H3 := only_no_names) 0%nat) as [HP HT].
  split.
  - apply HP; [reflexivity | vm_compute; discriminate | reflexivity
               | discriminate | reflexivity].
  - apply (HT (track_post "{oops")); [reflexivity | discriminate | | reflexivity].
    vm_compute. discriminate.
Defined.

End EndpointsBody.
